(** * Solaris: weekly progress and milestone accumulation

    A shallow embedding of the report form ([ReportForm]), its loader
    ([ReportFormLoader]), the project detail view ([ProjectDetailView]) and
    the general report view ([GeneralReportView]) of the Solaris project
    manager, together with the properties of the weekly report engine.

    Firestore is modelled as finite maps from document ids to documents;
    JavaScript numbers that are computed by division are IEEE-754 binary64
    values ([spec_float] at precision 53), strings are [string]. *)

From Stdlib Require Import ZArith List Bool Floats.SpecFloat.
From stdpp Require Import gmap strings list fin_maps sorting pretty.
Import ListNotations.

Local Open Scope string_scope.
Local Open Scope Z_scope.
Local Open Scope list_scope.

(** ** JavaScript numbers *)

Module Js.

(** A JavaScript [number] is a binary64 float. *)
Definition number : Type := spec_float.

Definition prec : Z := 53.
Definition emax : Z := 1024.

(** The number denoted by an integer literal or an array length (exact below
    2^53, rounded to nearest-even above). *)
Definition of_Z (z : Z) : number := binary_normalize prec emax z 0 false.
Definition of_nat (n : nat) : number := of_Z (Z.of_nat n).

Definition div (x y : number) : number := SFdiv prec emax x y.
Definition mul (x y : number) : number := SFmul prec emax x y.
Definition leb (x y : number) : bool := SFleb x y.

(** [Math.round x]: the integer closest to [x], ties going towards
    +Infinity; NaN and the infinities are returned unchanged.  The finite
    case is computed exactly on the value [±m * 2^e]. *)
Definition round_finite (s : bool) (m : positive) (e : Z) : Z :=
  let sm := if s then Z.neg m else Z.pos m in
  if 0 <=? e then sm * 2 ^ e
  else (2 * sm + 2 ^ (- e)) / (2 * 2 ^ (- e)).

Definition Math_round (x : number) : number :=
  match x with
  | S754_finite s m e =>
      binary_normalize prec emax (round_finite s m e) 0 s
  | _ => x
  end.

(** [x || d] on strings: the empty string is falsy. *)
Definition or_string (x d : string) : string :=
  if decide (x = "") then d else x.

End Js.

(** ** Data model ([src/lib/types.ts]) *)

Record Project := mkProject {
  project_id : string;
  project_name : string;
  clientId : string;
  managerId : string;
  projectType : string;
  startDate : string;
  estimatedEndDate : string;
  project_status : string
}.

Record Milestone := mkMilestone {
  milestone_id : string;
  milestone_name : string;
  description : string;
  milestone_projectType : string
}.

(** [id] is optional: it does not exist for new reports until saved. *)
Record WeeklyReport := mkWeeklyReport {
  id : option string;
  projectId : string;
  week : Z;
  progress : Js.number;
  summary : string;
  status : string;
  milestones : list string;
  createdAt : string
}.

(** ** Firestore

    [projects/{projectId}], [projects/{projectId}/weeklyReports/{reportId}]
    and [milestones/{milestoneId}].  A stored report carries no [id] field;
    the id is the key of the document. *)

Record FirestoreError := mkFirestoreError { code : string; message : string }.

Record Firestore := mkFirestore {
  fs_projects : gmap string Project;
  fs_weeklyReports : gmap string (gmap string WeeklyReport);
  fs_milestones : gmap string Milestone
}.

(** [collection(firestore, `projects/${projectId}/weeklyReports`)] *)
Definition reportsCollection (fs : Firestore) (projectId : string)
    : gmap string WeeklyReport :=
  default ∅ (fs_weeklyReports fs !! projectId).

Definition set_reportsCollection (fs : Firestore) (projectId : string)
    (coll : gmap string WeeklyReport) : Firestore :=
  mkFirestore (fs_projects fs) (<[projectId := coll]> (fs_weeklyReports fs))
              (fs_milestones fs).

Definition set_projects (fs : Firestore) (ps : gmap string Project) : Firestore :=
  mkFirestore ps (fs_weeklyReports fs) (fs_milestones fs).

(** What the backend answers to the requests of one operation, and the two
    values the client draws from its surroundings: the clock and the document
    id generated by [addDoc]. *)
Record Env := mkEnv {
  now : string;
  autoId : string;
  read_verdict : option FirestoreError;
  report_verdict : option FirestoreError;
  project_verdict : option FirestoreError;
  batch_verdict : option FirestoreError
}.

Definition not_found : FirestoreError :=
  mkFirestoreError "not-found" "No document to update".

(** [addDoc(coll, data)] *)
Definition addDoc {A} (verdict : option FirestoreError) (newId : string)
    (data : A) (coll : gmap string A) : FirestoreError + gmap string A :=
  match verdict with
  | Some e => inl e
  | None => inr (<[newId := data]> coll)
  end.

(** [updateDoc(doc(coll, docId), fields)]: fails on a missing document,
    otherwise merges [fields] into the stored one. *)
Definition updateDoc {A} (verdict : option FirestoreError) (docId : string)
    (fields : A → A) (coll : gmap string A) : FirestoreError + gmap string A :=
  match verdict with
  | Some e => inl e
  | None =>
      match coll !! docId with
      | None => inl not_found
      | Some old => inr (<[docId := fields old]> coll)
      end
  end.

Definition with_id (k : string) (r : WeeklyReport) : WeeklyReport :=
  mkWeeklyReport (Some k) (projectId r) (week r) (progress r) (summary r)
                 (status r) (milestones r) (createdAt r).

Definition with_milestone_id (k : string) (m : Milestone) : Milestone :=
  mkMilestone k (milestone_name m) (description m) (milestone_projectType m).

(** Modelled from the spec: the hook [useCollection] of [@/firebase] is not
    among the sources.  Once loaded it hands over the documents read from the
    store, each with its document id attached. *)
Definition useCollection {A} (attach : string → A → A) (coll : gmap string A)
    : list A :=
  (λ kv, attach kv.1 kv.2) <$> map_to_list coll.

(** Modelled from the spec: [useDoc] of [@/firebase], the document under a
    reference with its id attached, or nothing when it does not exist. *)
Definition useDoc {A} (attach : string → A → A) (coll : gmap string A)
    (docId : string) : option A :=
  attach docId <$> coll !! docId.

(** [orderBy('week', dir)] *)
Definition week_le (a b : WeeklyReport) : Prop := week a ≤ week b.
Definition week_ge (a b : WeeklyReport) : Prop := week b ≤ week a.

#[global] Instance week_le_dec : RelDecision week_le.
Proof. intros a b. unfold week_le. apply _. Defined.
#[global] Instance week_ge_dec : RelDecision week_ge.
Proof. intros a b. unfold week_ge. apply _. Defined.

(** Documents of equal week come in the order of their document ids
    (compared byte by byte), in the direction of the [orderBy]. *)
Definition doc_id (r : WeeklyReport) : string := default "" (id r).

Definition orderBy_week_asc (a b : WeeklyReport) : Prop :=
  week a < week b ∨ (week a = week b ∧ String.le (doc_id a) (doc_id b)).
Definition orderBy_week_desc (a b : WeeklyReport) : Prop :=
  orderBy_week_asc b a.

#[global] Instance orderBy_week_asc_dec : RelDecision orderBy_week_asc.
Proof. intros a b. unfold orderBy_week_asc. apply _. Defined.
#[global] Instance orderBy_week_desc_dec : RelDecision orderBy_week_desc.
Proof. intros a b. unfold orderBy_week_desc. apply _. Defined.

(** [query(collection(..weeklyReports), orderBy('week', 'asc'))]
    ([ProjectDetailView]) *)
Definition reportsQuery (fs : Firestore) (projectId : string)
    : list WeeklyReport :=
  merge_sort orderBy_week_asc
    (useCollection with_id (reportsCollection fs projectId)).

(** [query(collection(firestore, "milestones"),
          where("projectType", "==", project.projectType))] *)
Definition milestonesQuery (fs : Firestore) (project : Project)
    : list Milestone :=
  filter (λ m, milestone_projectType m = projectType project)
         (useCollection with_milestone_id (fs_milestones fs)).

(** ** Milestone sets as the code builds them *)

(** [Array.from(new Set(l))]: a JavaScript [Set] keeps insertion order and
    ignores an [add] of a value it already holds. *)
Definition Set_add (acc : list string) (x : string) : list string :=
  if decide (x ∈ acc) then acc else acc ++ [x].

Definition Set_from (l : list string) : list string :=
  fold_left Set_add l [].

(** ** The report form loader ([ReportFormLoader]) *)

(** [where("week", "<", weekToCompare), orderBy("week", "desc")] *)
Definition previousReportsQuery (fs : Firestore) (projectId : string)
    (weekToCompare : Z) : list WeeklyReport :=
  merge_sort orderBy_week_desc
    (filter (λ r, week r < weekToCompare)
            (useCollection with_id (reportsCollection fs projectId))).

(** [previouslyCompletedMilestones]: every milestone id of every previous
    report, added to one [Set]. *)
Definition previouslyCompletedMilestones
    (previousReports : option (list WeeklyReport)) : list string :=
  match previousReports with
  | None => []
  | Some rs => Set_from (concat (milestones <$> rs))
  end.

(** A string used as a condition: [undefined], [null] and [""] are falsy. *)
Definition truthy (x : option string) : bool :=
  match x with
  | Some k => bool_decide (k ≠ "")
  | None => false
  end.

Record ReportFormProps := mkProps {
  p_project : Project;
  p_report : WeeklyReport;
  p_previouslyCompletedMilestones : list string
}.

Definition newReportObject (env : Env) (project : Project) (reportNumber : Z)
    : WeeklyReport :=
  mkWeeklyReport None (project_id project) reportNumber (Js.of_Z 0) ""
                 "On Track" [] (now env).

(** The props the loader passes to [ReportForm] once both reads have
    settled and the read of the report has not failed (the code after
    [if (reportError) throw reportError]); [None] is the [notFound()]
    outcome.  The project is loaded, so that [project.id], the id of its
    document, is not empty. *)
Definition ReportFormLoader (env : Env) (fs : Firestore) (project : Project)
    (reportNumber : Z) (reportId : option string) : option ReportFormProps :=
  let reportToEdit :=
    if truthy reportId
    then useDoc with_id (reportsCollection fs (project_id project))
                (default "" reportId)
    else None in
  let weekToCompare := from_option week reportNumber reportToEdit in
  let previousReports :=
    previousReportsQuery fs (project_id project) weekToCompare in
  if truthy reportId && negb (bool_decide (is_Some reportToEdit)) then None
  else Some (mkProps project
               (default (newReportObject env project reportNumber) reportToEdit)
               (previouslyCompletedMilestones (Some previousReports))).

(** What the loader ends in once its reads have settled. *)
Inductive Rendered :=
  | thrown (e : FirestoreError)
  | notFound
  | ReportForm (props : ReportFormProps).

(** The loader with its error outcome.  The report is read only when a report
    id is given ([reportToEditRef] is [null] otherwise); [reportError] is the
    error of that read, and it is thrown before anything else is looked at.
    The loader takes no error from the query of the previous reports, and
    what [useCollection] hands over after a failed query is not among the
    sources: that query is taken as answered. *)
Definition ReportFormLoader_render (env : Env) (fs : Firestore)
    (project : Project) (reportNumber : Z) (reportId : option string)
    : Rendered :=
  let reportError := if truthy reportId then read_verdict env else None in
  match reportError with
  | Some e => thrown e
  | None =>
      match ReportFormLoader env fs project reportNumber reportId with
      | None => notFound
      | Some props => ReportForm props
      end
  end.

(** ** The report form ([ReportForm]) *)

Record FormState := mkFormState {
  form_summary : string;
  form_status : string;
  checkedMilestones : list string;
  showCompletionDialog : bool;
  isSubmitting : bool
}.

(** The state after mounting: the [useState] initial values and the effect
    that merges the inherited milestones with those of the report. *)
Definition initialState (props : ReportFormProps) : FormState :=
  mkFormState
    (Js.or_string (summary (p_report props)) "")
    (Js.or_string (status (p_report props)) "On Track")
    (Set_from (p_previouslyCompletedMilestones props
               ++ milestones (p_report props)))
    false false.

Definition setSummary (v : string) (st : FormState) : FormState :=
  mkFormState v (form_status st) (checkedMilestones st)
              (showCompletionDialog st) (isSubmitting st).
Definition setStatus (v : string) (st : FormState) : FormState :=
  mkFormState (form_summary st) v (checkedMilestones st)
              (showCompletionDialog st) (isSubmitting st).
Definition setCheckedMilestones (f : list string → list string)
    (st : FormState) : FormState :=
  mkFormState (form_summary st) (form_status st) (f (checkedMilestones st))
              (showCompletionDialog st) (isSubmitting st).
Definition setShowCompletionDialog (b : bool) (st : FormState) : FormState :=
  mkFormState (form_summary st) (form_status st) (checkedMilestones st)
              b (isSubmitting st).
Definition setIsSubmitting (b : bool) (st : FormState) : FormState :=
  mkFormState (form_summary st) (form_status st) (checkedMilestones st)
              (showCompletionDialog st) b.

(** [progressValue]: 0 while the catalog is not loaded or is empty, otherwise
    [Math.round((checkedMilestones.length / projectMilestones.length) * 100)]. *)
Definition progressValue (projectMilestones : option (list Milestone))
    (checked : list string) : Js.number :=
  match projectMilestones with
  | None => Js.of_Z 0
  | Some pm =>
      if decide (length pm = 0%nat) then Js.of_Z 0
      else Js.Math_round
             (Js.mul (Js.div (Js.of_nat (length checked))
                             (Js.of_nat (length pm)))
                     (Js.of_Z 100))
  end.

(** [handleCheckboxChange]: the update it passes to [setCheckedMilestones]. *)
Definition handleCheckboxChange (milestoneId : string) (checked : bool)
    (prev : list string) : list string :=
  if checked then prev ++ [milestoneId]
  else filter (λ i, i ≠ milestoneId) prev.

(** *** Validation ([reportSchema]) *)

Record ReportFields := mkFields {
  f_summary : string;
  f_status : string;
  f_milestones : list string;
  f_progress : Js.number
}.

(** The issue texts of the validation library; only the one for an empty
    summary is set by the schema itself. *)
Record ZodMessages := mkZodMessages {
  invalid_enum_value : string → string;
  invalid_type_nan : string;
  too_small : string;
  too_big : string
}.

Definition is_nan (x : Js.number) : bool :=
  match x with S754_nan => true | _ => false end.

Definition allowed_status : list string := ["On Track"; "At Risk"; "Off Track"].

(** [z.string().min(1, "Summary is required.")] *)
Definition check_summary (v : string) : list string :=
  if decide (String.length v < 1)%nat then ["Summary is required."] else [].

(** [z.enum(["On Track", "At Risk", "Off Track"])] *)
Definition check_status (zm : ZodMessages) (v : string) : list string :=
  if decide (v ∈ allowed_status) then [] else [invalid_enum_value zm v].

(** [z.number().min(0).max(100)] *)
Definition check_progress (zm : ZodMessages) (v : Js.number) : list string :=
  if is_nan v then [invalid_type_nan zm]
  else (if Js.leb (Js.of_Z 0) v then [] else [too_small zm])
       ++ (if Js.leb v (Js.of_Z 100) then [] else [too_big zm]).

(** [error.flatten().fieldErrors]: the fields that have issues, in the order
    of the schema, each with its messages. *)
Definition fieldErrors (zm : ZodMessages) (d : ReportFields)
    : list (string * list string) :=
  filter (λ fe, fe.2 ≠ [])
    [("summary", check_summary (f_summary d));
     ("status", check_status zm (f_status d));
     ("progress", check_progress zm (f_progress d))].

(** [reportSchema.safeParse]: the parsed data, or the field errors. *)
Definition safeParse (zm : ZodMessages) (d : ReportFields)
    : list (string * list string) + ReportFields :=
  match fieldErrors zm d with
  | [] => inr d
  | errs => inl errs
  end.

(** *** Effects observable from outside the component *)

Inductive Effect :=
  | toast (variant : option string) (title description : string)
  | router_push (path : string)
  | emit_permission_error (path operation : string).

Definition newline : string := String (Ascii.ascii_of_nat 10) EmptyString.
Definition quote : string := String (Ascii.ascii_of_nat 34) EmptyString.

(** *** [saveReportAndProject] *)

Definition finalReportData (env : Env) (report : WeeklyReport)
    (data : ReportFields) : WeeklyReport :=
  mkWeeklyReport None (projectId report) (week report) (f_progress data)
    (f_summary data) (f_status data) (f_milestones data)
    (if truthy (id report) then createdAt report else now env).

Definition set_status_Completed (p : Project) : Project :=
  mkProject (project_id p) (project_name p) (clientId p) (managerId p)
            (projectType p) (startDate p) (estimatedEndDate p) "Completed".

(** A settled write: its error, if any, and the store it leaves. *)
Definition settle {A} (fs : Firestore) (put : A → Firestore)
    (r : FirestoreError + A) : option FirestoreError * Firestore :=
  match r with
  | inl e => (Some e, fs)
  | inr new => (None, put new)
  end.

(** [reportPromise]: [addDoc] for a new report, [updateDoc] on the document
    of the report otherwise, in [projects/${project.id}/weeklyReports]. *)
Definition reportPromise (env : Env) (props : ReportFormProps)
    (final : WeeklyReport) (fs : Firestore)
    : option FirestoreError * Firestore :=
  let report := p_report props in
  let project := p_project props in
  let isNewReport := negb (truthy (id report)) in
  let coll := reportsCollection fs (project_id project) in
  settle fs (set_reportsCollection fs (project_id project))
    (if isNewReport
     then addDoc (report_verdict env) (autoId env) final coll
     else updateDoc (report_verdict env) (default "" (id report))
                    (λ _, final) coll).

(** [projectUpdatePromise]: [updateDoc(projectRef, { status: 'Completed' })] *)
Definition projectUpdatePromise (env : Env) (props : ReportFormProps)
    (fs : Firestore) : option FirestoreError * Firestore :=
  settle fs (set_projects fs)
    (updateDoc (project_verdict env) (project_id (p_project props))
               set_status_Completed (fs_projects fs)).

Definition save_effects (props : ReportFormProps)
    (markProjectAsCompleted : bool) (error : option FirestoreError)
    : list Effect :=
  let isNewReport := negb (truthy (id (p_report props))) in
  match error with
  | None =>
      [toast None "Success"
         ("Report " +:+ (if isNewReport then "created" else "updated")
          +:+ " and project status "
          +:+ (if markProjectAsCompleted then "set to Completed"
               else "remains unchanged") +:+ ".");
       router_push ("/projects/" +:+ project_id (p_project props))]
  | Some e =>
      if decide (code e = "permission-denied")
      then [emit_permission_error "Multiple operations" "write"]
      else [toast (Some "destructive") "Error"
              (Js.or_string (message e) "An unexpected error occurred.")]
  end.

(** The draft handed to the schema. *)
Definition reportDataForValidation (projectMilestones : option (list Milestone))
    (st : FormState) : ReportFields :=
  mkFields (form_summary st) (form_status st) (checkedMilestones st)
           (progressValue projectMilestones (checkedMilestones st)).

(** The report write and, when asked for, the project update are issued
    together and awaited with [Promise.all]; they touch different documents.
    When both fail the error of the report write is the one handled.  The
    Firestore instance is there: the queries of the component were built
    from it. *)
Definition saveReportAndProject (zm : ZodMessages) (env : Env)
    (props : ReportFormProps) (projectMilestones : option (list Milestone))
    (markProjectAsCompleted : bool) (st : FormState) (fs : Firestore)
    : FormState * Firestore * list Effect :=
  let st := setShowCompletionDialog false (setIsSubmitting true st) in
  match safeParse zm (reportDataForValidation projectMilestones st) with
  | inl errs =>
      let errorMessage := String.concat newline (concat (snd <$> errs)) in
      (setIsSubmitting false st, fs,
       [toast (Some "destructive") "Validation Error"
              (Js.or_string errorMessage "Please check the form fields.")])
  | inr data =>
      let final := finalReportData env (p_report props) data in
      let rp := reportPromise env props final fs in
      let pp := if markProjectAsCompleted
                then projectUpdatePromise env props rp.2
                else (None, rp.2) in
      (setIsSubmitting false st, pp.2,
       save_effects props markProjectAsCompleted (rp.1 ∪ pp.1))
  end.

(** *** [handleFormSubmit] and the completion dialog *)

(** The condition under which submitting opens the completion dialog. *)
Definition allMilestonesCompleted (project : Project)
    (projectMilestones : option (list Milestone)) (st : FormState) : bool :=
  match projectMilestones with
  | None => false
  | Some pm =>
      bool_decide (length (checkedMilestones st) = length pm)
      && bool_decide (project_status project ≠ "Completed")
  end.

Definition handleFormSubmit (zm : ZodMessages) (env : Env)
    (props : ReportFormProps) (projectMilestones : option (list Milestone))
    (st : FormState) (fs : Firestore) : FormState * Firestore * list Effect :=
  if allMilestonesCompleted (p_project props) projectMilestones st
  then (setShowCompletionDialog true st, fs, [])
  else saveReportAndProject zm env props projectMilestones false st fs.

(** The two buttons of the dialog: "Just Save Report" and "Confirm & Save". *)
Definition decline := λ zm env props pm,
  saveReportAndProject zm env props pm false.
Definition confirm := λ zm env props pm,
  saveReportAndProject zm env props pm true.

(** *** The events of the form *)

(** The events of the form.  A checkbox is rendered for each milestone of the
    catalog and is disabled when the milestone was completed in an earlier
    week, so that it raises no event. *)
Inductive FormEvent :=
  | onSummaryChange (v : string)
  | onStatusChange (v : string)
  | onCheckedChange (milestoneId : string) (checked : bool).

Definition handleEvent (st : FormState) (ev : FormEvent) : FormState :=
  match ev with
  | onSummaryChange v => setSummary v st
  | onStatusChange v => setStatus v st
  | onCheckedChange m c => setCheckedMilestones (handleCheckboxChange m c) st
  end.

Definition enabled (props : ReportFormProps)
    (projectMilestones : option (list Milestone)) (ev : FormEvent) : Prop :=
  match ev with
  | onCheckedChange m _ =>
      m ∈ milestone_id <$> default [] projectMilestones
      ∧ m ∉ p_previouslyCompletedMilestones props
  | _ => True
  end.

(** ** Project detail view ([ProjectDetailView], [GeneralReportView]) *)

(** [reports[reports.length - 1]] and [latestReport?.progress ?? 0] *)
Definition latestReport (reports : list WeeklyReport) : option WeeklyReport :=
  last reports.

Definition overallProgress (reports : list WeeklyReport) : Js.number :=
  from_option progress (Js.of_Z 0) (latestReport reports).

(** *** [handleDeleteProject] *)

Inductive DocRef :=
  | reportDoc (projectId reportId : string)
  | projectDoc (projectId : string).

Definition delete_doc (ref : DocRef) (fs : Firestore) : Firestore :=
  match ref with
  | reportDoc pid rid =>
      set_reportsCollection fs pid (delete rid (reportsCollection fs pid))
  | projectDoc pid => set_projects fs (delete pid (fs_projects fs))
  end.

(** [getDocs(reportsColRef)]: the references of the documents read. *)
Definition getDocs (verdict : option FirestoreError) (fs : Firestore)
    (projectId : string) : FirestoreError + list DocRef :=
  match verdict with
  | Some e => inl e
  | None =>
      inr ((λ kv, reportDoc projectId kv.1)
             <$> map_to_list (reportsCollection fs projectId))
  end.

(** [batch.commit()]: every delete of the batch is applied, or none is. *)
Definition batch_commit (verdict : option FirestoreError) (batch : list DocRef)
    (fs : Firestore) : FirestoreError + Firestore :=
  match verdict with
  | Some e => inl e
  | None => inr (foldl (λ acc ref, delete_doc ref acc) fs batch)
  end.

Definition deletion_failed (e : FirestoreError) (project : Project)
    : list Effect :=
  if decide (code e = "permission-denied")
  then [emit_permission_error
          ("projects/" +:+ project_id project +:+ " and its subcollections")
          "delete"]
  else [toast (Some "destructive") "Deletion Failed"
          (Js.or_string (message e)
             "An unexpected error occurred while deleting the project.")].

(** The result is the final [isDeleting] flag, the store and the effects. *)
Definition handleDeleteProject (env : Env) (project : option Project)
    (isDeleting : bool) (fs : Firestore) : bool * Firestore * list Effect :=
  match project with
  | None => (isDeleting, fs, [])
  | Some project =>
      match getDocs (read_verdict env) fs (project_id project) with
      | inl e => (false, fs, deletion_failed e project)
      | inr reportsSnapshot =>
          let batch : list DocRef :=
            (reportsSnapshot ++ [projectDoc (project_id project)])%list in
          match batch_commit (batch_verdict env) batch fs with
          | inl e => (false, fs, deletion_failed e project)
          | inr fs' =>
              (true, fs',
               [toast None "Project Deleted"
                  ("The project " +:+ quote +:+ project_name project +:+ quote
                   +:+ " and all its reports have been permanently removed.");
                router_push "/projects"])
          end
      end
  end.

(** ** Notions used by the properties *)

(** The id under which the report write stores the report. *)
Definition report_key (env : Env) (props : ReportFormProps) : string :=
  if truthy (id (p_report props)) then default "" (id (p_report props))
  else autoId env.

Definition occurrences (m : string) (l : list string) : nat :=
  length (filter (λ x, x = m) l).

(** [Math.round((k / n) * 100)] on two array lengths. *)
Definition percent_of_counts (k n : nat) : Js.number :=
  Js.Math_round (Js.mul (Js.div (Js.of_nat k) (Js.of_nat n)) (Js.of_Z 100)).

(** Round-half-up of the exact percentage [100 * k / n], for [n > 0]:
    the integer [r] with [r - 1/2 <= 100 * k / n < r + 1/2]. *)
Definition round_half_up_percent (k n : Z) : Z := (200 * k + n) / (2 * n).

#[global] Instance number_eq_dec : EqDecision Js.number.
Proof. unfold Js.number. solve_decision. Defined.

Definition agrees (k n : nat) : bool :=
  bool_decide (percent_of_counts k n
               = Js.of_Z (round_half_up_percent (Z.of_nat k) (Z.of_nat n))).

(** At an exact half the double-precision result may also be one lower. *)
Definition agrees_or_tie (k n : nat) : bool :=
  agrees k n
  || (bool_decide ((200 * Z.of_nat k) mod (2 * Z.of_nat n) = Z.of_nat n)
      && bool_decide (percent_of_counts k n
                      = Js.of_Z (round_half_up_percent (Z.of_nat k)
                                                       (Z.of_nat n) - 1))).

(** Bounded universal quantification, decided by running through the
    numbers below the bound. *)
Fixpoint all_below (P : nat → bool) (n : nat) : bool :=
  match n with
  | O => true
  | S n' => P n' && all_below P n'
  end.

Definition milestone_named (k : string) : Milestone :=
  mkMilestone k k "" "solar-roof".

(** A catalog of 40 milestones, 23 of them checked. *)
Definition catalog40 : list Milestone :=
  (λ i : nat, milestone_named ("m" +:+ pretty i)) <$> seq 0 40.
Definition checked23 : list string :=
  milestone_id <$> take 23 catalog40.

Definition in_range (p : Js.number) : Prop :=
  Js.leb (Js.of_Z 0) p = true ∧ Js.leb p (Js.of_Z 100) = true.

Definition valid_draft (d : ReportFields) : Prop :=
  f_summary d ≠ "" ∧ f_status d ∈ allowed_status ∧ in_range (f_progress d).

Definition deletion_error (env : Env) : option FirestoreError :=
  match read_verdict env with
  | Some e => Some e
  | None => batch_verdict env
  end.

(** Completion is never retracted: the milestones of a report are among those
    of every report of a later week. *)
Definition monotone (coll : gmap string WeeklyReport) : Prop :=
  map_Forall (λ _ r1,
    map_Forall (λ _ r2, week r1 < week r2 → milestones r1 ⊆ milestones r2)
               coll) coll.

#[global] Instance monotone_dec coll : Decision (monotone coll).
Proof. unfold monotone. apply _. Defined.

#[global] Instance enabled_dec props pm ev : Decision (enabled props pm ev).
Proof. destruct ev; simpl; apply _. Defined.

(** ** Scenarios *)

Module Scenario.

(** The texts of the validation library for [reportSchema]. *)
Definition zod : ZodMessages :=
  mkZodMessages
    (λ v, "Invalid enum value. Expected 'On Track' | 'At Risk' | 'Off Track', "
          +:+ "received '" +:+ v +:+ "'")
    "Expected number, received nan"
    "Number must be greater than or equal to 0"
    "Number must be less than or equal to 100".

(** A backend that accepts every request. *)
Definition env : Env :=
  mkEnv "2024-05-02T08:00:00.000Z" "r9" None None None None.

Definition permission_denied : FirestoreError :=
  mkFirestoreError "permission-denied" "Missing or insufficient permissions.".

Definition project : Project :=
  mkProject "p1" "Roof" "c1" "u1" "solar-roof" "2024-01-01" "2024-12-31"
            "On Track".

Definition catalog (ids : list string) : gmap string Milestone :=
  list_to_map ((λ k, (k, milestone_named k)) <$> ids).

Definition report (w : Z) (p : Z) (ms : list string) (t : string)
    : WeeklyReport :=
  mkWeeklyReport None "p1" w (Js.of_Z p) "Panels mounted" "On Track" ms t.

Definition store (reports : list (string * WeeklyReport))
    (ids : list string) : Firestore :=
  mkFirestore {[ "p1" := project ]} {[ "p1" := list_to_map reports ]}
              (catalog ids).

End Scenario.

(** ** Further code of the views *)

(** [Math.max(a, b)] and [Math.min(a, b)]: NaN when an argument is NaN;
    between the two zeros, [+0] is the larger. *)
Definition Math_max (a b : Js.number) : Js.number :=
  if is_nan a || is_nan b then S754_nan
  else match SFcompare a b with
       | Some Lt => b
       | Some Gt => a
       | _ =>
           match a, b with
           | S754_zero sa, S754_zero sb => S754_zero (sa && sb)
           | _, _ => a
           end
       end.

Definition Math_min (a b : Js.number) : Js.number :=
  if is_nan a || is_nan b then S754_nan
  else match SFcompare a b with
       | Some Lt => a
       | Some Gt => b
       | _ =>
           match a, b with
           | S754_zero sa, S754_zero sb => S754_zero (sa || sb)
           | _, _ => a
           end
       end.

(** [timeProgress] of [ProjectDetailView], from the day counts that
    [differenceInDays] gives for the estimated end and for today, both taken
    from the start date. *)
Definition timeProgress (totalDuration elapsedDuration : Js.number)
    : Js.number :=
  let progress :=
    if SFltb (Js.of_Z 0) totalDuration
    then Js.Math_round
           (Js.mul (Js.div elapsedDuration totalDuration) (Js.of_Z 100))
    else Js.of_Z 0 in
  Math_max (Js.of_Z 0) (Math_min (Js.of_Z 100) progress).

(** [daysRemaining], from the day count between today and the estimated end. *)
Definition daysRemaining (remaining : Js.number) : Js.number :=
  Math_max (Js.of_Z 0) remaining.

(** The week of the "New Report" link: [(reports?.length || 0) + 1]. *)
Definition newReportNumber (reports : option (list WeeklyReport)) : Z :=
  Z.of_nat (length (default [] reports)) + 1.

(** [allCompletedMilestones] of [GeneralReportView] and
    [PrintGeneralReportView]: the ids of all reports, added to one [Set]. *)
Definition allCompletedMilestones (reports : list WeeklyReport)
    : list string :=
  Set_from (concat (milestones <$> reports)).

(** [isCompleted] of the checklist of the general report. *)
Definition isCompleted (reports : list WeeklyReport) (milestone : Milestone)
    : bool :=
  bool_decide (milestone_id milestone ∈ allCompletedMilestones reports).

(** ** The milestone form ([MilestoneForm]) and the project form
    ([ProjectForm]) *)

(** What these forms do besides showing something: they reset their fields
    and call the [onSuccess] of their owner. *)
Inductive FormEffect :=
  | shown (e : Effect)
  | form_reset
  | onSuccess.

(** [z.string().min(1, message)] on a field of
    [Object.fromEntries(formData.entries())], which may be missing;
    [required] is the text of the validation library for a missing field. *)
Definition check_field (required message : string)
    (data : gmap string string) (field : string) : list string :=
  match data !! field with
  | None => [required]
  | Some v => if decide (String.length v < 1)%nat then [message] else []
  end.

Definition field_value (data : gmap string string) (field : string) : string :=
  default "" (data !! field).

Definition with_errors (checks : list (string * list string))
    : list (string * list string) :=
  filter (λ fe, fe.2 ≠ []) checks.

Definition error_description (errs : list (string * list string)) : string :=
  Js.or_string (String.concat newline (concat (snd <$> errs)))
               "Please check the form fields.".

Definition set_milestones (fs : Firestore) (ms : gmap string Milestone)
    : Firestore :=
  mkFirestore (fs_projects fs) (fs_weeklyReports fs) ms.

(** [milestoneSchema] *)
Definition milestoneSchema_errors (required : string)
    (data : gmap string string) : list (string * list string) :=
  with_errors
    [("name", check_field required "Milestone name is required." data "name");
     ("description",
      check_field required "Description is required." data "description");
     ("projectType",
      check_field required "Project type is required." data "projectType")].

(** The document written for a milestone: the three validated fields.  The
    id of the record is the id of the document, as the hooks attach it. *)
Definition milestoneData (k : string) (data : gmap string string) : Milestone :=
  mkMilestone k (field_value data "name") (field_value data "description")
              (field_value data "projectType").

(** [handleError] of the milestone form. *)
Definition milestone_handleError (milestone : option Milestone)
    (e : FirestoreError) : list FormEffect :=
  if decide (code e = "permission-denied")
  then [shown (emit_permission_error
                 (match milestone with
                  | Some m => "milestones/" +:+ milestone_id m
                  | None => "milestones"
                  end)
                 (if milestone is Some _ then "update" else "create"))]
  else [shown (toast (Some "destructive") "Error"
                 (Js.or_string (message e)
                    "An unexpected error occurred while saving the milestone."))].

(** [handleSubmit] of the milestone form; [verdict] is the answer of the
    backend and [newId] the id that [addDoc] generates. *)
Definition MilestoneForm_handleSubmit (required : string)
    (verdict : option FirestoreError) (newId : string)
    (milestone : option Milestone) (data : gmap string string)
    (fs : Firestore) : Firestore * list FormEffect :=
  match milestoneSchema_errors required data with
  | (_ :: _) as errs =>
      (fs, [shown (toast (Some "destructive") "Validation Error"
                     (error_description errs))])
  | [] =>
      match
        match milestone with
        | Some m =>
            updateDoc verdict (milestone_id m)
              (λ old, milestoneData (milestone_id old) data) (fs_milestones fs)
        | None =>
            addDoc verdict newId (milestoneData newId data) (fs_milestones fs)
        end
      with
      | inr ms =>
          (set_milestones fs ms,
           [shown (toast None "Success"
                     ("Milestone "
                      +:+ (if milestone is Some _ then "updated" else "created")
                      +:+ " successfully."));
            form_reset; onSuccess])
      | inl e => (fs, milestone_handleError milestone e)
      end
  end.

(** [projectSchema] *)
Definition project_statuses : list string :=
  ["On Track"; "At Risk"; "Off Track"; "On Hold"; "Completed"].

Definition check_project_status (zm : ZodMessages) (required : string)
    (data : gmap string string) : list string :=
  match data !! "status" with
  | None => [required]
  | Some v =>
      if decide (v ∈ project_statuses) then [] else [invalid_enum_value zm v]
  end.

Definition projectSchema_errors (zm : ZodMessages) (required : string)
    (data : gmap string string) : list (string * list string) :=
  with_errors
    [("name", check_field required "Project name is required." data "name");
     ("clientId", check_field required "Client is required." data "clientId");
     ("managerId",
      check_field required "Manager ID is required." data "managerId");
     ("projectType",
      check_field required "Project type is required." data "projectType");
     ("startDate",
      check_field required "Start date is required." data "startDate");
     ("estimatedEndDate",
      check_field required "Estimated end date is required." data
                  "estimatedEndDate");
     ("status", check_project_status zm required data)].

Definition projectData (k : string) (data : gmap string string) : Project :=
  mkProject k (field_value data "name") (field_value data "clientId")
    (field_value data "managerId") (field_value data "projectType")
    (field_value data "startDate") (field_value data "estimatedEndDate")
    (field_value data "status").

(** [handleSubmit] of the project form.  The write is not awaited: success
    is reported at once, and the rejection handler, which runs afterwards,
    only reacts to a missing permission. *)
Definition ProjectForm_handleSubmit (zm : ZodMessages) (required : string)
    (verdict : option FirestoreError) (newId : string)
    (project : option Project) (data : gmap string string) (fs : Firestore)
    : Firestore * list FormEffect :=
  match projectSchema_errors zm required data with
  | (_ :: _) as errs =>
      (fs, [shown (toast (Some "destructive") "Validation Error"
                     (error_description errs))])
  | [] =>
      let write :=
        match project with
        | Some p =>
            updateDoc verdict (project_id p)
              (λ old, projectData (project_id old) data) (fs_projects fs)
        | None =>
            addDoc verdict newId (projectData newId data) (fs_projects fs)
        end in
      let reported :=
        [shown (toast None "Success"
                  ("Project " +:+ (if project is Some _ then "updated" else "created")
                   +:+ " successfully."));
         form_reset; onSuccess] in
      match write with
      | inr ps => (set_projects fs ps, reported)
      | inl e =>
          (fs,
           reported
           ++ (if decide (code e = "permission-denied")
               then [shown (emit_permission_error
                              (match project with
                               | Some p => "projects/" +:+ project_id p
                               | None => "projects"
                               end)
                              (if project is Some _ then "update" else "create"))]
               else []))
      end
  end.

(** ** Further notions *)

(** A checkbox shows [checkedMilestones.includes(milestone.id)]: it can be
    checked only while its id is not in the list. *)
Definition fresh_check (st : FormState) (ev : FormEvent) : Prop :=
  match ev with
  | onCheckedChange m true => m ∉ checkedMilestones st
  | _ => True
  end.

Fixpoint fresh_checks (st : FormState) (evs : list FormEvent) : Prop :=
  match evs with
  | [] => True
  | ev :: evs => fresh_check st ev ∧ fresh_checks (handleEvent st ev) evs
  end.

(** The weeks of the reports of a project are 1, 2, ..., n, each once. *)
Definition sequential (coll : gmap string WeeklyReport) : Prop :=
  week <$> (map_to_list coll).*2 ≡ₚ Z.of_nat <$> seq 1 (size coll).

(** [Math.max(0, Math.min(100, p))] *)
Definition clamp (p : Js.number) : Js.number :=
  Math_max (Js.of_Z 0) (Math_min (Js.of_Z 100) p).

(** A number that is neither NaN nor infinite. *)
Definition is_finite (x : Js.number) : Prop :=
  match x with
  | S754_zero _ | S754_finite _ _ _ => True
  | _ => False
  end.

(** A field of the submitted form that is present and not empty. *)
Definition filled (data : gmap string string) (field : string) : Prop :=
  ∃ v, data !! field = Some v ∧ v ≠ "".

(** * Properties *)

(** ** The store under the writes of the form *)

Section store.
Implicit Types (fs : Firestore) (coll : gmap string WeeklyReport).

Lemma reportsCollection_set fs p coll q :
  reportsCollection (set_reportsCollection fs p coll) q
  = if decide (p = q) then coll else reportsCollection fs q.
Proof.
  unfold reportsCollection, set_reportsCollection. simpl.
  destruct (decide (p = q)) as [->|Hpq].
  - by rewrite lookup_insert_eq.
  - by rewrite lookup_insert_ne.
Qed.

Lemma reportsCollection_set_projects fs ps q :
  reportsCollection (set_projects fs ps) q = reportsCollection fs q.
Proof. reflexivity. Qed.

(** The report write either fails and leaves the store as it is, or stores
    the report under its key and changes nothing else. *)
Lemma reportPromise_cases env props final fs :
  let pid := project_id (p_project props) in
  let r := reportPromise env props final fs in
  (is_Some r.1 ∧ r.2 = fs)
  ∨ (r.1 = None ∧ report_verdict env = None
     ∧ r.2 = set_reportsCollection fs pid
               (<[report_key env props := final]> (reportsCollection fs pid))).
Proof.
  intros pid r. subst r. unfold reportPromise, report_key, addDoc, updateDoc.
  destruct (report_verdict env) as [e|].
  - left. destruct (truthy _); simpl; eauto.
  - destruct (truthy (id (p_report props))); simpl.
    + destruct (reportsCollection _ _ !! _); simpl; eauto.
    + right. eauto.
Qed.

Lemma reportPromise_accepted env props final fs :
  let pid := project_id (p_project props) in
  report_verdict env = None →
  (truthy (id (p_report props)) = true →
   is_Some (reportsCollection fs pid !! report_key env props)) →
  reportPromise env props final fs
  = (None, set_reportsCollection fs pid
             (<[report_key env props := final]> (reportsCollection fs pid))).
Proof.
  intros pid Hv Hex. subst pid.
  unfold reportPromise, report_key, addDoc, updateDoc in *.
  rewrite Hv. destruct (truthy (id (p_report props))); simpl; [|done].
  destruct (Hex eq_refl) as [old ->]. done.
Qed.

Lemma reportPromise_projects env props final fs :
  fs_projects (reportPromise env props final fs).2 = fs_projects fs.
Proof.
  destruct (reportPromise_cases env props final fs) as [[_ ->]|(_ & _ & ->)];
    done.
Qed.

Lemma projectUpdatePromise_reports env props fs q :
  reportsCollection (projectUpdatePromise env props fs).2 q
  = reportsCollection fs q.
Proof.
  unfold projectUpdatePromise, updateDoc.
  destruct (project_verdict env); [done|].
  by destruct (fs_projects fs !! _).
Qed.

(** What a call of [saveReportAndProject] leaves in the report collections:
    nothing new, or the validated draft under the key of the report. *)
Lemma saveReportAndProject_reports zm env props pm mark st fs :
  let pid := project_id (p_project props) in
  let fs' := (saveReportAndProject zm env props pm mark st fs).1.2 in
  let final :=
    finalReportData env (p_report props) (reportDataForValidation pm st) in
  (∀ q, reportsCollection fs' q = reportsCollection fs q)
  ∨ (safeParse zm (reportDataForValidation pm st)
       = inr (reportDataForValidation pm st)
     ∧ report_verdict env = None
     ∧ ∀ q, reportsCollection fs' q
            = if decide (pid = q)
              then <[report_key env props := final]> (reportsCollection fs pid)
              else reportsCollection fs q).
Proof.
  intros pid fs' final. subst fs'. unfold saveReportAndProject.
  change (reportDataForValidation pm
            (setShowCompletionDialog false (setIsSubmitting true st)))
    with (reportDataForValidation pm st).
  unfold safeParse.
  destruct (fieldErrors zm (reportDataForValidation pm st)) as [|fe errs];
    [|by left].
  cbv beta iota zeta. fold final.
  destruct (reportPromise_cases env props final fs) as [[_ Hfs]|(_ & Hv & Hfs)].
  - left. intros q. destruct mark; cbn [fst snd].
    + by rewrite projectUpdatePromise_reports, Hfs.
    + by rewrite Hfs.
  - right. split; [done|]. split; [done|]. intros q.
    destruct mark; cbn [fst snd].
    + by rewrite projectUpdatePromise_reports, Hfs, reportsCollection_set.
    + by rewrite Hfs, reportsCollection_set.
Qed.

Lemma saveReportAndProject_dialog zm env props pm mark st fs :
  showCompletionDialog (saveReportAndProject zm env props pm mark st fs).1.1
  = false.
Proof.
  unfold saveReportAndProject.
  by destruct (safeParse zm _).
Qed.

End store.

(** ** Checkbox updates and the progress they give *)

Lemma progressValue_counts (m : Milestone) (pm : list Milestone)
    (checked : list string) :
  progressValue (Some (m :: pm)) checked
  = percent_of_counts (length checked) (S (length pm)).
Proof. reflexivity. Qed.

Lemma progressValue_no_catalog (checked : list string) :
  progressValue None checked = Js.of_Z 0
  ∧ progressValue (Some []) checked = Js.of_Z 0.
Proof. split; reflexivity. Qed.

Lemma occurrences_app (m : string) (l k : list string) :
  occurrences m (l ++ k) = (occurrences m l + occurrences m k)%nat.
Proof. unfold occurrences. by rewrite filter_app, length_app. Qed.

Lemma occurrences_filter_ne (m x : string) (l : list string) :
  x ≠ m → occurrences x (filter (λ i, i ≠ m) l) = occurrences x l.
Proof.
  intros Hx. unfold occurrences.
  induction l as [|a l IH]; [done|].
  rewrite (filter_cons (λ i, i ≠ m)).
  destruct (decide (a ≠ m)) as [Ha|Ha].
  - rewrite !(filter_cons (λ y, y = x)).
    destruct (decide (a = x)); simpl; by rewrite IH.
  - apply dec_stable in Ha. subst a.
    rewrite (filter_cons (λ y, y = x)).
    destruct (decide (m = x)); [congruence|done].
Qed.

(** C10. Checking [m] appends it to the list even when it is already there,
    so that [m] then occurs once more and the list is one longer; unchecking
    [m] removes every occurrence of [m] and nothing else; the progress is
    computed from the length of the list, so a repeated id counts again. *)
Theorem handleCheckboxChange_semantics (s : list string) (m : string) :
  handleCheckboxChange m true s = s ++ [m]
  ∧ occurrences m (handleCheckboxChange m true s) = S (occurrences m s)
  ∧ length (handleCheckboxChange m true s) = S (length s)
  ∧ (m ∉ handleCheckboxChange m false s)
  ∧ (∀ x, x ≠ m →
       occurrences x (handleCheckboxChange m false s) = occurrences x s)
  ∧ (∀ c pm, progressValue (Some (c :: pm)) (handleCheckboxChange m true s)
             = percent_of_counts (S (length s)) (S (length pm))).
Proof.
  unfold handleCheckboxChange. repeat split.
  - rewrite occurrences_app. unfold occurrences at 2.
    rewrite (filter_cons (λ x, x = m)), decide_True by done. simpl. lia.
  - rewrite length_app. simpl. lia.
  - intros [Hm _]%list_elem_of_filter. by apply Hm.
  - intros x Hx. by apply occurrences_filter_ne.
  - intros c pm. rewrite progressValue_counts, length_app. simpl.
    by replace (length s + 1)%nat with (S (length s)) by lia.
Qed.

(** ** Progress at write time *)

Lemma round_half_up_percent_spec (k n : Z) :
  0 < n →
  2 * n * round_half_up_percent k n ≤ 200 * k + n
  ∧ 200 * k + n < 2 * n * (round_half_up_percent k n + 1).
Proof.
  intros Hn. unfold round_half_up_percent.
  pose proof (Z.div_mod (200 * k + n) (2 * n) ltac:(lia)) as Hdm.
  pose proof (Z.mod_pos_bound (200 * k + n) (2 * n) ltac:(lia)) as Hb.
  lia.
Qed.

Lemma all_below_spec (P : nat → bool) (n : nat) :
  all_below P n = true → ∀ k, (k < n)%nat → P k = true.
Proof.
  induction n as [|n IH]; simpl; intros H k Hk; [lia|].
  apply andb_true_iff in H as [HP Hall].
  destruct (decide (k = n)) as [->|Hne]; [done|].
  apply IH; [done|lia].
Qed.

(** All catalog sizes [1 .. 39] against all counts [0 .. 2 * size]. *)
Lemma agree_table :
  all_below (λ n, all_below (λ k, agrees k (S n)) (S (2 * S n))) 39 = true.
Proof. vm_compute. reflexivity. Qed.

Lemma agrees_small (k n : nat) :
  (0 < n < 40)%nat → (k ≤ 2 * n)%nat →
  percent_of_counts k n
  = Js.of_Z (round_half_up_percent (Z.of_nat k) (Z.of_nat n)).
Proof.
  intros Hn Hk. destruct n as [|n]; [lia|].
  assert (Hrow : all_below (λ k, agrees k (S n)) (S (2 * S n)) = true).
  { apply (all_below_spec _ 39 agree_table n). lia. }
  assert (Hcell : agrees k (S n) = true).
  { apply (all_below_spec _ _ Hrow k). lia. }
  unfold agrees in Hcell. apply bool_decide_eq_true in Hcell. exact Hcell.
Qed.

(** The claim C3 fails for 23 checked milestones out of 40: the exact
    percentage is 57.5, which rounds half-up to 58, but the quotient
    [23 / 40] is rounded to a double before it is multiplied by 100, the
    product is 57.49999999999999 and [Math.round] gives 57. *)
Lemma progressValue_23_of_40 :
  length catalog40 = 40%nat ∧ length checked23 = 23%nat
  ∧ Js.mul (Js.div (Js.of_nat 23) (Js.of_nat 40)) (Js.of_Z 100)
    = S754_finite false 8092405580431359 (-47)
  ∧ progressValue (Some catalog40) checked23 = Js.of_Z 57
  ∧ round_half_up_percent 23 40 = 58
  ∧ progressValue (Some catalog40) checked23
    ≠ Js.of_Z (round_half_up_percent 23 40).
Proof. vm_compute. repeat split; congruence. Qed.

(** C3, as the code has it. The stored progress is 0 for an empty catalog;
    for a catalog of fewer than 40 milestones and at most twice as many
    checked ids it is the exact percentage rounded half-up. (From 40
    milestones on the double-precision product can fall just below a half
    and round one lower.) *)
Theorem progressValue_round_half_up (pm : list Milestone)
    (checked : list string) :
  (length pm < 40)%nat →
  (length pm = 0 ∨ length checked ≤ 2 * length pm)%nat →
  progressValue (Some pm) checked
  = if decide (length pm = 0%nat) then Js.of_Z 0
    else Js.of_Z (round_half_up_percent (Z.of_nat (length checked))
                                        (Z.of_nat (length pm))).
Proof.
  intros Hn Hk. unfold progressValue.
  destruct (decide (length pm = 0%nat)) as [|Hne]; [done|].
  apply agrees_small; lia.
Qed.

Lemma progressValue_round_half_up_witness :
  progressValue (Some (take 4 catalog40)) (take 3 checked23) = Js.of_Z 75.
Proof.
  apply (progressValue_round_half_up (take 4 catalog40) (take 3 checked23)).
  - vm_compute. lia.
  - right. vm_compute. lia.
Defined.

(** Up to 100 milestones the two roundings differ only at an exact half,
    and then by one. *)
Lemma agree_table_100 :
  all_below (λ n, all_below (λ k, agrees_or_tie k (S n)) (S (2 * S n))) 100
  = true.
Proof. vm_compute. reflexivity. Qed.

Lemma progressValue_off_ties (pm : list Milestone) (checked : list string) :
  (0 < length pm ≤ 100)%nat →
  (length checked ≤ 2 * length pm)%nat →
  let k := Z.of_nat (length checked) in
  let n := Z.of_nat (length pm) in
  progressValue (Some pm) checked = Js.of_Z (round_half_up_percent k n)
  ∨ ((200 * k) mod (2 * n) = n
     ∧ progressValue (Some pm) checked
       = Js.of_Z (round_half_up_percent k n - 1)).
Proof.
  intros Hn Hk k n. subst k n. unfold progressValue.
  destruct (decide (length pm = 0%nat)) as [|_]; [lia|].
  fold (percent_of_counts (length checked) (length pm)).
  destruct (length pm) as [|n]; [lia|].
  assert (Hrow : all_below (λ k, agrees_or_tie k (S n)) (S (2 * S n)) = true).
  { apply (all_below_spec _ 100 agree_table_100 n). lia. }
  assert (Hcell : agrees_or_tie (length checked) (S n) = true).
  { apply (all_below_spec _ _ Hrow (length checked)). lia. }
  unfold agrees_or_tie, agrees in Hcell.
  apply orb_true_iff in Hcell as [H|H].
  - left. by apply bool_decide_eq_true in H.
  - right. apply andb_true_iff in H as [H1 H2].
    apply bool_decide_eq_true in H1, H2. done.
Qed.

(** ** The completion decision *)

(** C2. The completion dialog is offered although a milestone of the catalog
    is unchecked.  Week 1 checked milestone [a]; since then the catalog of
    the project type holds the single milestone [b].  The new report of week
    2 inherits [a], one id is checked, the catalog has one milestone:
    submitting opens the completion dialog although [b] is not checked.  The
    test of [handleFormSubmit], commented "Check if all milestones are
    completed", compares the two lengths, where the checkbox list tests
    [checkedMilestones.includes(milestone.id)]. *)
Lemma completion_offered_on_other_id :
  let fs := Scenario.store [("r1", Scenario.report 1 100 ["a"] "T0")] ["b"] in
  let pm := milestonesQuery fs Scenario.project in
  let props :=
    mkProps Scenario.project
      (newReportObject Scenario.env Scenario.project 2) ["a"] in
  ReportFormLoader Scenario.env fs Scenario.project 2 None = Some props
  ∧ checkedMilestones (initialState props) = ["a"]
  ∧ milestone_id <$> pm = ["b"]
  ∧ handleFormSubmit Scenario.zod Scenario.env props (Some pm)
      (initialState props) fs
    = (setShowCompletionDialog true (initialState props), fs, []).
Proof. vm_compute. repeat split; reflexivity. Qed.

(** The same comparison of lengths, on an empty catalog: with no milestone
    template for the project type and nothing checked, submitting opens the
    completion dialog as well.  [progressValue] and the checkbox list guard
    the length 0; [handleFormSubmit] does not. *)
Lemma completion_offered_on_empty_catalog :
  let fs := Scenario.store [] [] in
  let props :=
    mkProps Scenario.project
      (newReportObject Scenario.env Scenario.project 1) [] in
  ReportFormLoader Scenario.env fs Scenario.project 1 None = Some props
  ∧ milestonesQuery fs Scenario.project = []
  ∧ checkedMilestones (initialState props) = []
  ∧ showCompletionDialog
      (handleFormSubmit Scenario.zod Scenario.env props
         (Some (milestonesQuery fs Scenario.project))
         (initialState props) fs).1.1 = true.
Proof. vm_compute. repeat split; reflexivity. Qed.

Lemma allMilestonesCompleted_spec project (pm : list Milestone) st :
  allMilestonesCompleted project (Some pm) st = true
  ↔ length (checkedMilestones st) = length pm
    ∧ project_status project ≠ "Completed".
Proof.
  unfold allMilestonesCompleted.
  rewrite andb_true_iff, !bool_decide_eq_true. done.
Qed.

(** Equal sizes mean equal sets when the checked ids are distinct ids of the
    catalog. *)
Lemma same_length_same_ids (checked ids : list string) :
  NoDup checked → checked ⊆ ids →
  length checked = length ids → checked ≡ₚ ids.
Proof.
  intros Hnd Hsub Hlen.
  apply submseteq_length_Permutation; [|lia].
  by apply NoDup_submseteq.
Qed.

(** What the test of [handleFormSubmit] decides.  For a loaded, non-empty
    catalog, submitting opens the completion dialog exactly when the number of checked ids equals the
    (nonzero) size of the catalog and the project is not yet Completed; the
    submission then writes nothing. When the checked ids are distinct ids of
    the catalog, equal sizes mean that every milestone of the catalog is
    checked. *)
Theorem handleFormSubmit_offers_completion zm env props
    (pm : list Milestone) st fs :
  pm ≠ [] →
  let r := handleFormSubmit zm env props (Some pm) st fs in
  (showCompletionDialog r.1.1 = true
   ↔ length (checkedMilestones st) = length pm
     ∧ length pm ≠ 0%nat
     ∧ project_status (p_project props) ≠ "Completed")
  ∧ (showCompletionDialog r.1.1 = true →
     r = (setShowCompletionDialog true st, fs, [])
     ∧ (NoDup (checkedMilestones st) →
        checkedMilestones st ⊆ milestone_id <$> pm →
        checkedMilestones st ≡ₚ milestone_id <$> pm)).
Proof.
  intros Hpm r. subst r. unfold handleFormSubmit.
  pose proof (allMilestonesCompleted_spec (p_project props) pm st) as Hspec.
  assert (length pm ≠ 0%nat) as Hlen by (by destruct pm).
  destruct (allMilestonesCompleted (p_project props) (Some pm) st).
  - destruct Hspec as [Hspec _]. destruct (Hspec eq_refl) as [Heq Hst].
    split; [by split|]. intros _. split; [done|].
    intros Hnd Hsub. apply same_length_same_ids; [done..|].
    by rewrite length_fmap.
  - rewrite saveReportAndProject_dialog. split.
    + split; [done|]. intros (Heq & _ & Hst).
      destruct Hspec as [_ Hspec]. by apply Hspec.
    + done.
Qed.

Lemma handleFormSubmit_offers_completion_witness :
  let fs := Scenario.store [] ["a"; "b"] in
  let pm := milestone_named <$> ["a"; "b"] in
  let props := mkProps Scenario.project (Scenario.report 3 0 [] "T0") [] in
  let st := mkFormState "Done" "On Track" ["a"; "b"] false false in
  let r := handleFormSubmit Scenario.zod Scenario.env props (Some pm) st fs in
  (showCompletionDialog r.1.1 = true
   ↔ length (checkedMilestones st) = length pm
     ∧ length pm ≠ 0%nat
     ∧ project_status (p_project props) ≠ "Completed")
  ∧ (showCompletionDialog r.1.1 = true →
     r = (setShowCompletionDialog true st, fs, [])
     ∧ (NoDup (checkedMilestones st) →
        checkedMilestones st ⊆ milestone_id <$> pm →
        checkedMilestones st ≡ₚ milestone_id <$> pm)).
Proof.
  intros fs pm props st.
  apply (handleFormSubmit_offers_completion Scenario.zod Scenario.env props
           pm st fs).
  subst pm. simpl. discriminate.
Defined.

(** ** The validation gate *)

Lemma check_summary_nil (v : string) : check_summary v = [] ↔ v ≠ "".
Proof.
  unfold check_summary. destruct v as [|c v]; simpl; try case_decide;
    try lia; intuition congruence.
Qed.

Lemma check_status_nil zm (v : string) :
  check_status zm v = [] ↔ v ∈ allowed_status.
Proof.
  unfold check_status. destruct (decide (v ∈ allowed_status)); [done|].
  split; [discriminate|done].
Qed.

Lemma check_progress_nil zm (p : Js.number) :
  check_progress zm p = [] ↔ in_range p.
Proof.
  unfold check_progress, in_range.
  destruct (is_nan p) eqn:Hnan.
  - destruct p; try discriminate. split; [discriminate|].
    intros [H _]. vm_compute in H. discriminate.
  - destruct (Js.leb (Js.of_Z 0) p), (Js.leb p (Js.of_Z 100)); simpl;
      split; try discriminate; try done; by intros [? ?].
Qed.

Lemma fieldErrors_nil zm d : fieldErrors zm d = [] ↔ valid_draft d.
Proof.
  unfold fieldErrors, valid_draft.
  rewrite <- check_summary_nil, <- (check_status_nil zm),
    <- (check_progress_nil zm).
  rewrite !filter_cons, filter_nil. simpl.
  destruct (check_summary _), (check_status _ _), (check_progress _ _);
    simpl; repeat case_decide; intuition congruence.
Qed.

Lemma fieldErrors_fields zm d fe :
  fe ∈ fieldErrors zm d →
  fe.1 ∈ ["summary"; "status"; "progress"] ∧ fe.2 ≠ [].
Proof.
  unfold fieldErrors. intros [Hne Hin]%list_elem_of_filter.
  split; [|done].
  rewrite !elem_of_cons, elem_of_nil in Hin.
  destruct Hin as [->|[->|[->|[]]]]; simpl;
    [apply list_elem_of_here
    |apply list_elem_of_further, list_elem_of_here
    |do 2 apply list_elem_of_further; apply list_elem_of_here].
Qed.

Lemma safeParse_spec zm d : safeParse zm d = inr d ↔ valid_draft d.
Proof.
  rewrite <- (fieldErrors_nil zm). unfold safeParse.
  destruct (fieldErrors zm d); simpl; split; intros H; try done; discriminate.
Qed.

Lemma validation_gate_store zm env props pm mark st fs :
  ¬ valid_draft (reportDataForValidation pm st) →
  (saveReportAndProject zm env props pm mark st fs).1.2 = fs.
Proof.
  intros Hinv. unfold saveReportAndProject.
  change (reportDataForValidation pm
            (setShowCompletionDialog false (setIsSubmitting true st)))
    with (reportDataForValidation pm st).
  destruct (safeParse zm (reportDataForValidation pm st)) as [errs|data] eqn:Hp;
    [done|].
  exfalso. apply Hinv. apply (safeParse_spec zm).
  unfold safeParse in *. by destruct (fieldErrors zm _).
Qed.

Lemma saveReportAndProject_accepted zm env props pm st fs :
  let pid := project_id (p_project props) in
  valid_draft (reportDataForValidation pm st) →
  report_verdict env = None →
  (truthy (id (p_report props)) = true →
   is_Some (reportsCollection fs pid !! report_key env props)) →
  saveReportAndProject zm env props pm false st fs
  = (setIsSubmitting false
       (setShowCompletionDialog false (setIsSubmitting true st)),
     set_reportsCollection fs pid
       (<[report_key env props :=
            finalReportData env (p_report props)
              (reportDataForValidation pm st)]> (reportsCollection fs pid)),
     save_effects props false None).
Proof.
  intros pid Hv Hverdict Hex. unfold saveReportAndProject.
  change (reportDataForValidation pm
            (setShowCompletionDialog false (setIsSubmitting true st)))
    with (reportDataForValidation pm st).
  apply (safeParse_spec zm) in Hv. rewrite Hv. cbv zeta.
  by rewrite reportPromise_accepted.
Qed.

(** C6. The schema accepts a draft exactly when its summary is not empty,
    its status is one of the three allowed values and its progress lies in
    [0, 100].  When the draft of the form is rejected, the errors name the
    offending fields, a "Validation Error" toast is shown, and the store is
    returned as it was: no write is issued. *)
Theorem validation_gate zm env props pm mark st fs (d : ReportFields) :
  (valid_draft d ↔ safeParse zm d = inr d)
  ∧ match safeParse zm (reportDataForValidation pm st) with
    | inr data =>
        data = reportDataForValidation pm st ∧ valid_draft data
    | inl errs =>
        ¬ valid_draft (reportDataForValidation pm st)
        ∧ errs ≠ []
        ∧ Forall (λ fe, fe.1 ∈ ["summary"; "status"; "progress"] ∧ fe.2 ≠ [])
                 errs
        ∧ (saveReportAndProject zm env props pm mark st fs).1.2 = fs
        ∧ ∃ description,
            (saveReportAndProject zm env props pm mark st fs).2
            = [toast (Some "destructive") "Validation Error" description]
    end.
Proof.
  split; [symmetry; apply safeParse_spec|].
  pose proof (safeParse_spec zm (reportDataForValidation pm st)) as Hspec.
  pose proof (fieldErrors_fields zm (reportDataForValidation pm st)) as Hfe.
  unfold saveReportAndProject.
  change (reportDataForValidation pm
            (setShowCompletionDialog false (setIsSubmitting true st)))
    with (reportDataForValidation pm st).
  unfold safeParse in *.
  destruct (fieldErrors zm (reportDataForValidation pm st)) as [|fe errs].
  - split; [done|]. by apply Hspec.
  - split; [intros Hv; by apply Hspec in Hv|].
    split; [done|]. split; [by apply Forall_forall|].
    split; [done|]. eauto.
Qed.

Lemma in_range_examples :
  Forall (λ z, in_range (Js.of_Z z)) (Z.of_nat <$> seq 0 101)
  ∧ ¬ in_range (Js.of_Z (-1)) ∧ ¬ in_range (Js.of_Z 101)
  ∧ ¬ in_range S754_nan.
Proof.
  split.
  - apply Forall_forall. intros z Hz.
    apply list_elem_of_fmap in Hz as (n & -> & Hn).
    apply list_elem_of_In, in_seq in Hn.
    assert (Hb : forallb (λ n, Js.leb (Js.of_Z 0) (Js.of_nat n)
                               && Js.leb (Js.of_nat n) (Js.of_Z 100))
                         (seq 0 101) = true) by (vm_compute; reflexivity).
    rewrite forallb_forall in Hb.
    specialize (Hb n ltac:(apply in_seq; lia)).
    apply andb_true_iff in Hb. exact Hb.
  - repeat split; intros [H1 H2]; vm_compute in H1, H2; discriminate.
Qed.

(** ** Overall progress *)

(** The claim C4 fails on a list that is not ordered by week: the last report
    of the list is taken, not the one of the highest week. *)
Lemma overallProgress_unordered :
  let r1 := with_id "r1" (Scenario.report 1 40 ["a"] "T0") in
  let r2 := with_id "r2" (Scenario.report 2 80 ["a"; "b"] "T1") in
  overallProgress [r2; r1] = Js.of_Z 40
  ∧ overallProgress [r1; r2] = Js.of_Z 80
  ∧ (∀ r, r ∈ [r2; r1] → week r ≤ week r2)
  ∧ overallProgress [r2; r1] ≠ progress r2.
Proof.
  intros r1 r2. repeat split; try (vm_compute; congruence).
  intros r Hr. rewrite !elem_of_cons, elem_of_nil in Hr.
  destruct Hr as [->|[->|[]]]; simpl; lia.
Qed.

Lemma last_sorted_max (reports : list WeeklyReport) (r : WeeklyReport) :
  StronglySorted week_le reports → last reports = Some r →
  ∀ r', r' ∈ reports → week r' ≤ week r.
Proof.
  induction 1 as [|a l Hs IH Hall]; [done|].
  intros Hlast r' Hr'. destruct l as [|b l].
  - simpl in Hlast. inversion Hlast; subst.
    apply list_elem_of_singleton in Hr'. subst. lia.
  - rewrite last_cons_cons in Hlast.
    apply elem_of_cons in Hr' as [->|Hr'].
    + rewrite Forall_forall in Hall.
      apply (Hall r). apply last_Some_elem_of. done.
    + by apply IH.
Qed.

(** C4, as the code has it. On a list ordered by week, as the reports query
    of the detail view delivers it, the overall progress is the progress of
    the last report, whose week is the highest of the list; it is 0 on the
    empty list. *)
Theorem overallProgress_latest (reports : list WeeklyReport) :
  StronglySorted week_le reports →
  match last reports with
  | Some r =>
      overallProgress reports = progress r
      ∧ r ∈ reports ∧ ∀ r', r' ∈ reports → week r' ≤ week r
  | None => reports = [] ∧ overallProgress reports = Js.of_Z 0
  end.
Proof.
  intros Hs. unfold overallProgress, latestReport.
  destruct (last reports) as [r|] eqn:Hlast.
  - split; [done|]. split; [by apply last_Some_elem_of|].
    by apply last_sorted_max.
  - split; [by apply last_None|done].
Qed.

Lemma overallProgress_latest_witness :
  let r1 := with_id "r1" (Scenario.report 1 40 ["a"] "T0") in
  let r2 := with_id "r2" (Scenario.report 2 80 ["a"; "b"] "T1") in
  overallProgress [r1; r2] = progress r2
  ∧ r2 ∈ [r1; r2] ∧ ∀ r', r' ∈ [r1; r2] → week r' ≤ week r2.
Proof.
  intros r1 r2. apply (overallProgress_latest [r1; r2]).
  repeat constructor; vm_compute; discriminate.
Defined.

(** The reports query of the detail view is ordered by week, so the overall
    progress shown there is that of a report of the highest week. *)
Lemma StronglySorted_weaken {A} (R R' : relation A) (l : list A) :
  (∀ x y, R x y → R' x y) → StronglySorted R l → StronglySorted R' l.
Proof.
  intros HR. induction 1 as [|x l Hl IH Hx]; constructor; [done|].
  eapply Forall_impl; [exact Hx|]. intros y. apply HR.
Qed.

Lemma orderBy_week_asc_trans : Transitive orderBy_week_asc.
Proof.
  intros a b c [Hab|[Hab Hiab]] [Hbc|[Hbc Hibc]]; unfold orderBy_week_asc;
    [left; lia..|].
  right. split; [lia|]. by etrans.
Qed.

Lemma orderBy_week_asc_total : Total orderBy_week_asc.
Proof.
  intros a b. unfold orderBy_week_asc.
  destruct (Z.lt_trichotomy (week a) (week b)) as [?|[Heq|?]]; [tauto| |tauto].
  destruct (String.le_total (doc_id a) (doc_id b)); [left|right]; right.
  - done.
  - split; [lia|done].
Qed.

(** The reports come by week and, within a week, by document id. *)
Lemma reportsQuery_ordered fs pid :
  StronglySorted orderBy_week_asc (reportsQuery fs pid).
Proof.
  unfold reportsQuery. apply StronglySorted_merge_sort.
  - apply orderBy_week_asc_trans.
  - apply orderBy_week_asc_total.
Qed.

Lemma reportsQuery_sorted fs pid : StronglySorted week_le (reportsQuery fs pid).
Proof.
  apply (StronglySorted_weaken orderBy_week_asc).
  { intros a b [?|[? _]]; unfold week_le; lia. }
  apply reportsQuery_ordered.
Qed.

Lemma reportsQuery_ties :
  let fs :=
    Scenario.store [("rb", Scenario.report 1 50 ["a"] "T0");
                    ("ra", Scenario.report 1 50 ["b"] "T1");
                    ("rc", Scenario.report 2 50 ["c"] "T2")] [] in
  id <$> reportsQuery fs "p1" = [Some "ra"; Some "rb"; Some "rc"]
  ∧ id <$> previousReportsQuery fs "p1" 3 = [Some "rc"; Some "rb"; Some "ra"].
Proof. vm_compute. split; reflexivity. Qed.

(** ** The inherited floor *)

Lemma Set_add_fold_elem (l acc : list string) (x : string) :
  x ∈ fold_left Set_add l acc ↔ x ∈ acc ∨ x ∈ l.
Proof.
  revert acc. induction l as [|a l IH]; intros acc; simpl.
  - split; [by left|]. by intros [?|?%elem_of_nil].
  - rewrite IH, elem_of_cons. unfold Set_add.
    destruct (decide (a ∈ acc)) as [Ha|Ha].
    + split; [tauto|]. intros [?|[->|?]]; tauto.
    + rewrite elem_of_app, list_elem_of_singleton. tauto.
Qed.

Lemma Set_add_fold_NoDup (l acc : list string) :
  NoDup acc → NoDup (fold_left Set_add l acc).
Proof.
  revert acc. induction l as [|a l IH]; intros acc Hacc; simpl; [done|].
  apply IH. unfold Set_add. destruct (decide (a ∈ acc)); [done|].
  apply NoDup_app. split; [done|]. split; [|apply NoDup_singleton].
  intros x Hx ->%list_elem_of_singleton. done.
Qed.

Lemma elem_of_Set_from (l : list string) (x : string) :
  x ∈ Set_from l ↔ x ∈ l.
Proof.
  unfold Set_from. rewrite Set_add_fold_elem.
  split; [by intros [?%elem_of_nil|?]|by right].
Qed.

Lemma NoDup_Set_from (l : list string) : NoDup (Set_from l).
Proof. apply Set_add_fold_NoDup. constructor. Qed.

Lemma elem_of_concat {A} (x : A) (ls : list (list A)) :
  x ∈ concat ls ↔ ∃ l, x ∈ l ∧ l ∈ ls.
Proof.
  induction ls as [|l ls IH]; simpl.
  - split; [by intros ?%elem_of_nil|]. by intros (l & _ & ?%elem_of_nil).
  - rewrite elem_of_app, IH. split.
    + intros [Hx|(l' & Hx & Hl')]; [exists l|exists l'];
        (split; [done|]); [by left|by right].
    + intros (l' & Hx & [->|Hl']%elem_of_cons); [by left|right; eauto].
Qed.

Lemma elem_of_useCollection (coll : gmap string WeeklyReport) (r : WeeklyReport) :
  r ∈ useCollection with_id coll
  ↔ ∃ k r0, coll !! k = Some r0 ∧ r = with_id k r0.
Proof.
  unfold useCollection. rewrite list_elem_of_fmap. split.
  - intros ([k r0] & -> & Hin). apply elem_of_map_to_list in Hin. eauto.
  - intros (k & r0 & Hk & ->). exists (k, r0). split; [done|].
    by apply elem_of_map_to_list.
Qed.

Lemma elem_of_previousReportsQuery fs pid w (r : WeeklyReport) :
  r ∈ previousReportsQuery fs pid w
  ↔ week r < w
    ∧ ∃ k r0, reportsCollection fs pid !! k = Some r0 ∧ r = with_id k r0.
Proof.
  unfold previousReportsQuery.
  rewrite merge_sort_Permutation, list_elem_of_filter, elem_of_useCollection.
  done.
Qed.

Lemma previousReportsQuery_ordered fs pid w :
  StronglySorted orderBy_week_desc (previousReportsQuery fs pid w).
Proof.
  unfold previousReportsQuery. apply StronglySorted_merge_sort.
  - intros a b c Hab Hbc. exact (orderBy_week_asc_trans c b a Hbc Hab).
  - intros a b. destruct (orderBy_week_asc_total a b); [right|left]; done.
Qed.

(** The previous reports come latest week first. *)
Lemma previousReportsQuery_sorted fs pid w :
  StronglySorted week_ge (previousReportsQuery fs pid w).
Proof.
  apply (StronglySorted_weaken orderBy_week_desc).
  { intros a b [?|[? _]]; unfold week_ge; lia. }
  apply previousReportsQuery_ordered.
Qed.

Lemma previouslyCompletedMilestones_spec (fs : Firestore) (pid : string)
    (w : Z) (m : string) :
  m ∈ previouslyCompletedMilestones (Some (previousReportsQuery fs pid w))
  ↔ ∃ k r, reportsCollection fs pid !! k = Some r
           ∧ week r < w ∧ m ∈ milestones r.
Proof.
  unfold previouslyCompletedMilestones.
  rewrite elem_of_Set_from, elem_of_concat. split.
  - intros (ms & Hm & Hms). apply list_elem_of_fmap in Hms as (r & -> & Hr).
    apply elem_of_previousReportsQuery in Hr as (Hw & k & r0 & Hk & ->).
    exists k, r0. done.
  - intros (k & r & Hk & Hw & Hm). exists (milestones (with_id k r)).
    split; [done|]. apply list_elem_of_fmap. exists (with_id k r).
    split; [done|]. apply elem_of_previousReportsQuery. split; [done|]. eauto.
Qed.

(** C8. The inherited milestones for a target week [w] are, without
    repetition, exactly the milestone ids of the stored reports of the
    project whose week is strictly less than [w]. *)
Theorem inherited_floor (fs : Firestore) (pid : string) (w : Z) :
  let floor :=
    previouslyCompletedMilestones (Some (previousReportsQuery fs pid w)) in
  NoDup floor
  ∧ ∀ m, m ∈ floor
         ↔ ∃ k r, reportsCollection fs pid !! k = Some r
                  ∧ week r < w ∧ m ∈ milestones r.
Proof.
  intros floor. subst floor.
  split; [apply NoDup_Set_from|].
  intros m. apply previouslyCompletedMilestones_spec.
Qed.

(** The props of the form: its report has the target week, and the floor is
    the one of that week. *)
Lemma ReportFormLoader_props env fs project reportNumber reportId props :
  ReportFormLoader env fs project reportNumber reportId = Some props →
  p_project props = project
  ∧ p_previouslyCompletedMilestones props
    = previouslyCompletedMilestones
        (Some (previousReportsQuery fs (project_id project)
                 (week (p_report props))))
  ∧ (truthy (id (p_report props)) = true →
     ∃ r0, reportsCollection fs (project_id project)
             !! report_key env props = Some r0
           ∧ p_report props = with_id (report_key env props) r0)
  ∧ (truthy (id (p_report props)) = false →
     p_report props = newReportObject env project reportNumber).
Proof.
  unfold ReportFormLoader, report_key.
  destruct (truthy reportId) eqn:Hid; simpl.
  - unfold useDoc.
    destruct reportId as [rid|]; [|done]. simpl in *.
    destruct (reportsCollection fs (project_id project) !! rid) as [r0|] eqn:Hr0;
      simpl.
    + intros [= <-]. simpl. rewrite Hid. simpl.
      split; [done|]. split; [done|]. split; [eauto|done].
    + done.
  - intros [= <-]. simpl. split; [done|]. split; [done|]. split; done.
Qed.

(** ** The creation timestamp *)

Lemma ReportFormLoader_edit env fs project reportNumber rid r0 :
  reportsCollection fs (project_id project) !! rid = Some r0 →
  rid ≠ "" →
  ReportFormLoader env fs project reportNumber (Some rid)
  = Some (mkProps project (with_id rid r0)
            (previouslyCompletedMilestones
               (Some (previousReportsQuery fs (project_id project) (week r0))))).
Proof.
  intros Hr0 Hrid. unfold ReportFormLoader, useDoc. simpl.
  assert (Ht : bool_decide (rid ≠ "") = true) by (by apply bool_decide_eq_true_2).
  rewrite !Ht, Hr0. simpl.
  done.
Qed.

Lemma ReportFormLoader_new env fs project reportNumber :
  ReportFormLoader env fs project reportNumber None
  = Some (mkProps project (newReportObject env project reportNumber)
            (previouslyCompletedMilestones
               (Some (previousReportsQuery fs (project_id project)
                        reportNumber)))).
Proof. reflexivity. Qed.

(** C7. Editing a stored report keeps its creation timestamp: whatever is
    typed or checked in the form, and whether the save ends in a write, a
    validation error or a refusal of the backend, the document of the report
    holds the [createdAt] it had before.  Only a report that has no id yet is
    given one, the time of its creation. *)
Theorem createdAt_preserved zm env fs project reportNumber
    (rid : string) (r0 : WeeklyReport) :
  reportsCollection fs (project_id project) !! rid = Some r0 →
  rid ≠ "" →
  (∃ props,
     ReportFormLoader env fs project reportNumber (Some rid) = Some props
     ∧ ∀ pm mark st,
         ∃ r', reportsCollection
                 (saveReportAndProject zm env props pm mark st fs).1.2
                 (project_id project) !! rid = Some r'
               ∧ createdAt r' = createdAt r0)
  ∧ (∃ props,
       ReportFormLoader env fs project reportNumber None = Some props
       ∧ ∀ data, createdAt (finalReportData env (p_report props) data)
                 = now env).
Proof.
  intros Hr0 Hrid. split.
  - eexists. split; [by apply ReportFormLoader_edit|].
    intros pm mark st.
    set (props := mkProps _ _ _).
    assert (Hkey : report_key env props = rid).
    { unfold report_key, props. simpl.
      by rewrite (bool_decide_eq_true_2 (rid ≠ "")). }
    destruct (saveReportAndProject_reports zm env props pm mark st fs)
      as [Hsame|(_ & _ & Hnew)].
    + exists r0. by rewrite Hsame.
    + eexists. rewrite Hnew. simpl. rewrite decide_True by done.
      rewrite Hkey, lookup_insert_eq. split; [done|].
      simpl. by rewrite (bool_decide_eq_true_2 (rid ≠ "")).
  - eexists. split; [apply ReportFormLoader_new|]. done.
Qed.

Lemma createdAt_preserved_witness :
  let fs := Scenario.store [("r1", Scenario.report 1 50 ["a"] "T0");
                            ("r2", Scenario.report 2 50 ["a"] "T1")]
                           ["a"; "b"] in
  (∃ props,
     ReportFormLoader Scenario.env fs Scenario.project 2 (Some "r2")
     = Some props
     ∧ ∀ pm mark st,
         ∃ r', reportsCollection
                 (saveReportAndProject Scenario.zod Scenario.env props pm mark
                    st fs).1.2
                 (project_id Scenario.project) !! "r2" = Some r'
               ∧ createdAt r' = "T1")
  ∧ (∃ props,
       ReportFormLoader Scenario.env fs Scenario.project 2 None = Some props
       ∧ ∀ data, createdAt (finalReportData Scenario.env (p_report props) data)
                 = now Scenario.env).
Proof.
  intros fs.
  apply (createdAt_preserved Scenario.zod Scenario.env fs Scenario.project 2
           "r2" (Scenario.report 2 50 ["a"] "T1")).
  - vm_compute. reflexivity.
  - discriminate.
Defined.

(** ** Declining the completion *)

Lemma saveReportAndProject_projects zm env props pm st fs :
  fs_projects (saveReportAndProject zm env props pm false st fs).1.2
  = fs_projects fs.
Proof.
  unfold saveReportAndProject. destruct (safeParse zm _); [done|].
  cbn [fst snd]. apply reportPromise_projects.
Qed.

(** The claim C9 fails when the draft does not validate.  Both milestones of
    the catalog are checked on a new report whose summary is still empty:
    submitting opens the dialog, and "Just Save Report" then ends in a
    validation error; no report is written. *)
Lemma decline_without_summary :
  let fs := Scenario.store [] ["a"; "b"] in
  let pm := Some (milestonesQuery fs Scenario.project) in
  let props :=
    mkProps Scenario.project
      (newReportObject Scenario.env Scenario.project 3) [] in
  let st :=
    setCheckedMilestones (handleCheckboxChange "b" true)
      (setCheckedMilestones (handleCheckboxChange "a" true)
         (initialState props)) in
  let submitted :=
    handleFormSubmit Scenario.zod Scenario.env props pm st fs in
  let declined :=
    decline Scenario.zod Scenario.env props pm submitted.1.1 submitted.1.2 in
  ReportFormLoader Scenario.env fs Scenario.project 3 None = Some props
  ∧ showCompletionDialog submitted.1.1 = true
  ∧ reportsCollection declined.1.2 "p1" = ∅
  ∧ declined.1.2 = fs
  ∧ declined.2
    = [toast (Some "destructive") "Validation Error" "Summary is required."].
Proof. vm_compute. repeat split; reflexivity. Qed.

(** C9, as the code has it. When a submission has opened the completion
    dialog and the caller declines, no update of a project document is
    issued: the projects are as before.  The report is written when the draft
    validates and the backend accepts the write (an edited report must still
    exist); it then holds the checked milestones and the computed progress.
    A draft that does not validate is not written. *)
Theorem decline_frame zm env props pm st fs :
  allMilestonesCompleted (p_project props) pm st = true →
  let pid := project_id (p_project props) in
  let submitted := handleFormSubmit zm env props pm st fs in
  let declined := decline zm env props pm submitted.1.1 submitted.1.2 in
  showCompletionDialog submitted.1.1 = true
  ∧ submitted.1.2 = fs
  ∧ fs_projects declined.1.2 = fs_projects fs
  ∧ (valid_draft (reportDataForValidation pm st) →
     report_verdict env = None →
     (truthy (id (p_report props)) = true →
      is_Some (reportsCollection fs pid !! report_key env props)) →
     ∃ r, reportsCollection declined.1.2 pid !! report_key env props = Some r
          ∧ milestones r = checkedMilestones st
          ∧ progress r = progressValue pm (checkedMilestones st))
  ∧ (¬ valid_draft (reportDataForValidation pm st) → declined.1.2 = fs).
Proof.
  intros Hall pid submitted declined. subst submitted declined pid.
  unfold handleFormSubmit, decline. rewrite Hall. cbn [fst snd].
  split; [done|]. split; [done|].
  split; [apply saveReportAndProject_projects|]. split.
  - intros Hv Hverdict Hex.
    rewrite (saveReportAndProject_accepted zm env props pm
               (setShowCompletionDialog true st) fs) by done.
    cbn [fst snd]. rewrite reportsCollection_set. case_decide; [|done].
    rewrite lookup_insert_eq. eauto.
  - intros Hinv. by apply validation_gate_store.
Qed.

Lemma decline_frame_witness :
  let fs := Scenario.store [] ["a"; "b"] in
  let pm := Some (milestonesQuery fs Scenario.project) in
  let props :=
    mkProps Scenario.project
      (newReportObject Scenario.env Scenario.project 3) [] in
  let st := mkFormState "Array wired" "On Track" ["a"; "b"] false false in
  let submitted :=
    handleFormSubmit Scenario.zod Scenario.env props pm st fs in
  let declined :=
    decline Scenario.zod Scenario.env props pm submitted.1.1 submitted.1.2 in
  showCompletionDialog submitted.1.1 = true
  ∧ fs_projects declined.1.2 = fs_projects fs
  ∧ ∃ r, reportsCollection declined.1.2 "p1" !! "r9" = Some r
         ∧ milestones r = ["a"; "b"] ∧ progress r = Js.of_Z 100.
Proof.
  intros fs pm props st submitted declined.
  destruct (decline_frame Scenario.zod Scenario.env props pm st fs)
    as (Hd & _ & Hp & Hw & _).
  { vm_compute. reflexivity. }
  split; [exact Hd|]. split; [exact Hp|].
  destruct Hw as (r & Hr & Hm & Hpr).
  - split; [discriminate|]. split; [apply list_elem_of_here|].
    split; vm_compute; reflexivity.
  - reflexivity.
  - intros H. vm_compute in H. discriminate.
  - exists r. split; [exact Hr|]. split; [exact Hm|].
    rewrite Hpr. vm_compute. reflexivity.
Defined.

(** ** Deleting a project *)

Lemma foldl_delete_lookup {A} (ks : list string) (coll : gmap string A)
    (k : string) :
  foldl (λ c j, delete j c) coll ks !! k
  = if decide (k ∈ ks) then None else coll !! k.
Proof.
  revert coll. induction ks as [|j ks IH]; intros coll; cbn [foldl].
  - destruct (decide (k ∈ [])) as [Hin|]; [by apply elem_of_nil in Hin|done].
  - rewrite IH.
    destruct (decide (k ∈ ks)) as [Hin|Hnin],
             (decide (k ∈ j :: ks)) as [Hin'|Hnin']; try done.
    + exfalso. apply Hnin'. by right.
    + apply elem_of_cons in Hin' as [->|?]; [|done]. apply lookup_delete_eq.
    + apply lookup_delete_ne. intros ->. apply Hnin'. by left.
Qed.

Lemma foldl_delete_all {A} (coll : gmap string A) :
  foldl (λ c j, delete j c) coll (map_to_list coll).*1 = ∅.
Proof.
  apply map_eq. intros k. rewrite foldl_delete_lookup, lookup_empty.
  destruct (decide (k ∈ (map_to_list coll).*1)) as [|Hnin]; [done|].
  destruct (coll !! k) as [v|] eqn:Hk; [|done].
  exfalso. apply Hnin. apply list_elem_of_fmap. exists (k, v).
  split; [done|]. by apply elem_of_map_to_list.
Qed.

(** Deleting report documents of one project touches only its collection. *)
Lemma foldl_delete_reports (pid : string) (ks : list string) (fs : Firestore) :
  fs_projects (foldl (λ acc ref, delete_doc ref acc) fs (reportDoc pid <$> ks))
  = fs_projects fs
  ∧ ∀ q, reportsCollection
           (foldl (λ acc ref, delete_doc ref acc) fs (reportDoc pid <$> ks)) q
         = if decide (pid = q)
           then foldl (λ c j, delete j c) (reportsCollection fs pid) ks
           else reportsCollection fs q.
Proof.
  revert fs. induction ks as [|k ks IH]; intros fs.
  - split; [done|]. intros q. cbn [fmap list_fmap foldl].
    by destruct (decide (pid = q)) as [->|].
  - rewrite fmap_cons. cbn [foldl].
    change (delete_doc (reportDoc pid k) fs)
      with (set_reportsCollection fs pid (delete k (reportsCollection fs pid))).
    destruct (IH (set_reportsCollection fs pid
                    (delete k (reportsCollection fs pid)))) as [IHp IHr].
    split; [by rewrite IHp|]. intros q. rewrite IHr.
    rewrite !reportsCollection_set.
    destruct (decide (pid = q)) as [->|]; [|done].
    by destruct (decide (q = q)).
Qed.

(** C5. A deletion call either succeeds, and then the report collection of
    the project is empty and its project document is absent, while the other
    projects and their reports are untouched; or it fails, at the read or at
    the commit of the batch, and then the store is exactly as before the
    call.  A failure for lack of permission is signalled on the
    permission-error channel. *)
Theorem handleDeleteProject_atomic env (project : Project) isDeleting fs :
  let pid := project_id project in
  let r := handleDeleteProject env (Some project) isDeleting fs in
  match deletion_error env with
  | None =>
      reportsCollection r.1.2 pid = ∅
      ∧ fs_projects r.1.2 !! pid = None
      ∧ (∀ q, q ≠ pid →
           reportsCollection r.1.2 q = reportsCollection fs q
           ∧ fs_projects r.1.2 !! q = fs_projects fs !! q)
      ∧ ∃ description,
          r.2 = [toast None "Project Deleted" description;
                 router_push "/projects"]
  | Some e =>
      r.1.2 = fs
      ∧ r.2 = deletion_failed e project
      ∧ (code e = "permission-denied" →
         r.2 = [emit_permission_error
                  ("projects/" +:+ pid +:+ " and its subcollections")
                  "delete"])
  end.
Proof.
  intros pid r. subst r.
  unfold handleDeleteProject, getDocs, batch_commit, deletion_error.
  fold pid.
  destruct (read_verdict env) as [e|]; simpl.
  { split; [done|]. split; [done|]. intros He. unfold deletion_failed.
    by case_decide. }
  destruct (batch_verdict env) as [e|]; simpl.
  { split; [done|]. split; [done|]. intros He. unfold deletion_failed.
    by case_decide. }
  rewrite foldl_app. simpl.
  assert (Hrefs :
    ((λ kv : string * WeeklyReport, reportDoc pid kv.1)
       <$> map_to_list (reportsCollection fs pid))
    = reportDoc pid <$> (map_to_list (reportsCollection fs pid)).*1)
    by (by rewrite <- list_fmap_compose).
  rewrite Hrefs. clear Hrefs.
  destruct (foldl_delete_reports pid (map_to_list (reportsCollection fs pid)).*1 fs)
    as [Hp Hr].
  set (fs1 := foldl _ fs _) in *.
  rewrite !reportsCollection_set_projects. split.
  { rewrite Hr. destruct (decide (pid = pid)); [|done]. apply foldl_delete_all. }
  split; [apply lookup_delete_eq|].
  split; [|eauto].
  intros q Hq. rewrite reportsCollection_set_projects. split.
  - rewrite Hr. destruct (decide (pid = q)); [by subst|done].
  - rewrite lookup_delete_ne by done. by rewrite Hp.
Qed.

(** A deletion refused for lack of permission: both reports and the project
    are still there, and the refusal is signalled. *)
Lemma handleDeleteProject_denied :
  let fs := Scenario.store [("r1", Scenario.report 1 33 ["a"] "T0");
                            ("r2", Scenario.report 2 33 ["a"] "T1")]
                           ["a"; "b"; "c"] in
  let env := mkEnv "2024-05-02T08:00:00.000Z" "r9" None None None
                   (Some Scenario.permission_denied) in
  handleDeleteProject env (Some Scenario.project) true fs
  = (false, fs,
     [emit_permission_error "projects/p1 and its subcollections" "delete"])
  ∧ reportsCollection
      (handleDeleteProject Scenario.env (Some Scenario.project) true fs).1.2
      "p1" = ∅
  ∧ fs_projects
      (handleDeleteProject Scenario.env (Some Scenario.project) true fs).1.2
    = ∅.
Proof. vm_compute. repeat split; reflexivity. Qed.

(** ** Monotonic inheritance *)

(** The claim C1 fails when an earlier report is edited.  Weeks 1 and 2 both
    hold milestone [a]; the report of week 1 is opened, milestone [b] (not
    inherited, so its checkbox is enabled) is checked and the report is
    saved.  Week 1 then holds [b] and week 2 does not. *)
Lemma monotone_broken_by_earlier_edit :
  let fs := Scenario.store [("r1", Scenario.report 1 33 ["a"] "T0");
                            ("r2", Scenario.report 2 33 ["a"] "T1")]
                           ["a"; "b"; "c"] in
  let pm := Some (milestonesQuery fs Scenario.project) in
  let props :=
    mkProps Scenario.project
      (with_id "r1" (Scenario.report 1 33 ["a"] "T0")) [] in
  let evs := [onCheckedChange "b" true] in
  let st := foldl handleEvent (initialState props) evs in
  let fs' := (handleFormSubmit Scenario.zod Scenario.env props pm st fs).1.2 in
  ReportFormLoader Scenario.env fs Scenario.project 1 (Some "r1") = Some props
  ∧ Forall (enabled props pm) evs
  ∧ monotone (reportsCollection fs "p1")
  ∧ milestones <$> reportsCollection fs' "p1" !! "r1" = Some ["a"; "b"]
  ∧ milestones <$> reportsCollection fs' "p1" !! "r2" = Some ["a"]
  ∧ ¬ monotone (reportsCollection fs' "p1").
Proof.
  intros fs pm props evs st fs'.
  split; [vm_compute; reflexivity|].
  split; [apply (bool_decide_unpack _); vm_compute; reflexivity|].
  split; [apply (bool_decide_unpack _); vm_compute; reflexivity|].
  split; [vm_compute; reflexivity|].
  split; [vm_compute; reflexivity|].
  apply (bool_decide_eq_false_1 _). vm_compute. reflexivity.
Qed.

(** The handler itself does not protect the floor: unchecking an inherited
    id removes it. *)
Lemma handleCheckboxChange_removes_inherited :
  handleCheckboxChange "a" false ["a"; "b"] = ["b"].
Proof. vm_compute. reflexivity. Qed.

Lemma floor_in_initialState (props : ReportFormProps) :
  p_previouslyCompletedMilestones props
  ⊆ checkedMilestones (initialState props).
Proof.
  intros m Hm. simpl. apply elem_of_Set_from, elem_of_app. by left.
Qed.

Lemma handleEvent_keeps_floor props pm st ev :
  enabled props pm ev →
  p_previouslyCompletedMilestones props ⊆ checkedMilestones st →
  p_previouslyCompletedMilestones props ⊆ checkedMilestones (handleEvent st ev).
Proof.
  intros Hen Hfloor m Hm. destruct ev as [v|v|j c]; simpl; [by apply Hfloor..|].
  destruct Hen as [_ Hj]. unfold handleCheckboxChange. destruct c.
  - apply elem_of_app. left. by apply Hfloor.
  - apply list_elem_of_filter. split; [|by apply Hfloor].
    intros ->. done.
Qed.

Lemma events_keep_floor props pm (evs : list FormEvent) st :
  Forall (enabled props pm) evs →
  p_previouslyCompletedMilestones props ⊆ checkedMilestones st →
  p_previouslyCompletedMilestones props
  ⊆ checkedMilestones (foldl handleEvent st evs).
Proof.
  intros Hall. revert st. induction Hall as [|ev evs Hev _ IH]; intros st Hst.
  - done.
  - simpl. apply IH. by apply (handleEvent_keeps_floor props pm).
Qed.

(** C1, as the code has it. In a write through the form, where the
    checkboxes of inherited milestones are disabled, the inherited floor is
    among the checked milestones; the report that the write stores holds
    exactly the checked milestones, hence those of every report of a strictly
    earlier week.  Reports of later weeks are not touched by the write: the
    store stays monotone when the written report is of the latest week. *)
Theorem inherited_floor_persisted zm env fs project reportNumber reportId
    props pm (evs : list FormEvent) mark :
  ReportFormLoader env fs project reportNumber reportId = Some props →
  Forall (enabled props pm) evs →
  let pid := project_id project in
  let st := foldl handleEvent (initialState props) evs in
  let fs' := (saveReportAndProject zm env props pm mark st fs).1.2 in
  let coll := reportsCollection fs pid in
  let coll' := reportsCollection fs' pid in
  p_previouslyCompletedMilestones props ⊆ checkedMilestones st
  ∧ (∀ k r', coll' !! k = Some r' → coll !! k ≠ Some r' →
       milestones r' = checkedMilestones st
       ∧ p_previouslyCompletedMilestones props ⊆ milestones r'
       ∧ ∀ k1 r1, coll !! k1 = Some r1 → week r1 < week r' →
                  milestones r1 ⊆ milestones r')
  ∧ (monotone coll →
     (∀ k r, coll !! k = Some r → week r ≤ week (p_report props)) →
     monotone coll').
Proof.
  intros Hload Hen pid st fs' coll coll'.
  destruct (ReportFormLoader_props _ _ _ _ _ _ Hload) as (Hproj & Hfloor & _).
  assert (Hst : p_previouslyCompletedMilestones props ⊆ checkedMilestones st).
  { apply (events_keep_floor props pm); [done|apply floor_in_initialState]. }
  assert (Hearlier : ∀ k1 r1, coll !! k1 = Some r1 →
            week r1 < week (p_report props) →
            milestones r1 ⊆ checkedMilestones st).
  { intros k1 r1 Hk1 Hw m Hm. apply Hst. rewrite Hfloor.
    apply previouslyCompletedMilestones_spec. eauto. }
  split; [done|].
  destruct (saveReportAndProject_reports zm env props pm mark st fs)
    as [Hsame|(_ & _ & Hnew)]; fold fs' in Hsame || fold fs' in Hnew.
  - subst coll'. rewrite Hsame. fold coll. split; [by intros k r' ? ?|done].
  - assert (Hcoll' : coll' = <[report_key env props :=
                finalReportData env (p_report props)
                  (reportDataForValidation pm st)]> coll).
    { subst coll' coll. rewrite Hnew, Hproj. fold pid.
      by destruct (decide (pid = pid)). }
    rewrite Hcoll'. split.
    + intros k r' Hk Hne.
      destruct (decide (k = report_key env props)) as [->|Hk'].
      * rewrite lookup_insert_eq in Hk. injection Hk as <-. simpl. done.
      * rewrite lookup_insert_ne in Hk by done. done.
    + intros Hmono Hlatest k1 r1 Hk1 k2 r2 Hk2 Hlt.
      destruct (decide (k2 = report_key env props)) as [->|Hk2'].
      * rewrite lookup_insert_eq in Hk2. injection Hk2 as <-. simpl in *.
        destruct (decide (k1 = report_key env props)) as [->|Hk1'].
        -- rewrite lookup_insert_eq in Hk1. injection Hk1 as <-.
           simpl in Hlt. lia.
        -- rewrite lookup_insert_ne in Hk1 by done. by apply (Hearlier k1).
      * rewrite lookup_insert_ne in Hk2 by done.
        destruct (decide (k1 = report_key env props)) as [->|Hk1'].
        -- rewrite lookup_insert_eq in Hk1. injection Hk1 as <-.
           simpl in Hlt. specialize (Hlatest k2 r2 Hk2). lia.
        -- rewrite lookup_insert_ne in Hk1 by done.
           by apply (Hmono k1 r1 Hk1 k2 r2 Hk2).
Qed.

Lemma inherited_floor_persisted_witness :
  let fs := Scenario.store [("r1", Scenario.report 1 33 ["a"] "T0");
                            ("r2", Scenario.report 2 33 ["a"] "T1")]
                           ["a"; "b"; "c"] in
  let pm := Some (milestonesQuery fs Scenario.project) in
  let props :=
    mkProps Scenario.project
      (with_id "r2" (Scenario.report 2 33 ["a"] "T1")) ["a"] in
  let evs := [onCheckedChange "b" true; onCheckedChange "c" true;
              onCheckedChange "c" false] in
  let st := foldl handleEvent (initialState props) evs in
  let fs' :=
    (saveReportAndProject Scenario.zod Scenario.env props pm false st fs).1.2 in
  let coll := reportsCollection fs "p1" in
  let coll' := reportsCollection fs' "p1" in
  ["a"] ⊆ checkedMilestones st
  ∧ (∀ k r', coll' !! k = Some r' → coll !! k ≠ Some r' →
       milestones r' = checkedMilestones st
       ∧ ["a"] ⊆ milestones r'
       ∧ ∀ k1 r1, coll !! k1 = Some r1 → week r1 < week r' →
                  milestones r1 ⊆ milestones r')
  ∧ (monotone coll →
     (∀ k r, coll !! k = Some r → week r ≤ 2) →
     monotone coll').
Proof.
  intros fs pm props evs st fs' coll coll'.
  apply (inherited_floor_persisted Scenario.zod Scenario.env fs
           Scenario.project 2 (Some "r2") props pm evs false).
  - vm_compute. reflexivity.
  - apply (bool_decide_unpack _). vm_compute. reflexivity.
Defined.

(** ** The checked list under the events of the form *)

Lemma initialState_checked (props : ReportFormProps) (m : string) :
  m ∈ checkedMilestones (initialState props)
  ↔ m ∈ p_previouslyCompletedMilestones props
    ∨ m ∈ milestones (p_report props).
Proof. simpl. by rewrite elem_of_Set_from, elem_of_app. Qed.

Lemma handleEvent_NoDup st ev :
  fresh_check st ev →
  NoDup (checkedMilestones st) → NoDup (checkedMilestones (handleEvent st ev)).
Proof.
  intros Hfresh Hnd. destruct ev as [v|v|m c]; simpl; [done..|].
  unfold handleCheckboxChange. destruct c; simpl in Hfresh.
  - apply NoDup_app. split; [done|]. split; [|apply NoDup_singleton].
    intros x Hx ->%list_elem_of_singleton. done.
  - by apply NoDup_filter.
Qed.

Lemma fresh_checks_NoDup (evs : list FormEvent) st :
  fresh_checks st evs →
  NoDup (checkedMilestones st) →
  NoDup (checkedMilestones (foldl handleEvent st evs)).
Proof.
  revert st. induction evs as [|ev evs IH]; intros st Hf Hnd; [done|].
  destruct Hf as [Hev Hrest]. simpl. apply IH; [done|].
  by apply handleEvent_NoDup.
Qed.

(** X1. The form starts with the inherited milestones and those of the
    report, each once.  As long as a checkbox is only checked while its id is
    not in the list (it shows whether the id is in the list), no id is ever
    in the list twice. *)
Theorem checkedMilestones_NoDup (props : ReportFormProps)
    (evs : list FormEvent) :
  fresh_checks (initialState props) evs →
  NoDup (checkedMilestones (initialState props))
  ∧ (∀ m, m ∈ checkedMilestones (initialState props)
          ↔ m ∈ p_previouslyCompletedMilestones props
            ∨ m ∈ milestones (p_report props))
  ∧ NoDup (checkedMilestones (foldl handleEvent (initialState props) evs)).
Proof.
  intros Hf.
  assert (Hnd : NoDup (checkedMilestones (initialState props)))
    by apply NoDup_Set_from.
  split; [done|]. split; [apply initialState_checked|].
  by apply fresh_checks_NoDup.
Qed.

Lemma checkedMilestones_NoDup_witness :
  let props :=
    mkProps Scenario.project
      (with_id "r2" (Scenario.report 2 33 ["a"] "T1")) ["a"] in
  let evs := [onCheckedChange "b" true; onCheckedChange "b" false;
              onCheckedChange "b" true; onSummaryChange "Inverter set"] in
  NoDup (checkedMilestones (initialState props))
  ∧ (∀ m, m ∈ checkedMilestones (initialState props)
          ↔ m ∈ p_previouslyCompletedMilestones props
            ∨ m ∈ milestones (p_report props))
  ∧ NoDup (checkedMilestones (foldl handleEvent (initialState props) evs)).
Proof.
  intros props evs. apply (checkedMilestones_NoDup props evs).
  simpl. repeat split; apply (bool_decide_unpack _); vm_compute; reflexivity.
Defined.

Lemma handleEvent_in_catalog props pm st ev (ids : list string) :
  ids = milestone_id <$> default [] pm →
  enabled props pm ev →
  checkedMilestones st ⊆ ids →
  checkedMilestones (handleEvent st ev) ⊆ ids.
Proof.
  intros -> Hen Hsub. destruct ev as [v|v|m c]; simpl; [done..|].
  destruct Hen as [Hm _]. unfold handleCheckboxChange. destruct c.
  - intros x [Hx|Hx%list_elem_of_singleton]%elem_of_app;
      [by apply Hsub|by subst].
  - intros x [_ Hx]%list_elem_of_filter. by apply Hsub.
Qed.

Lemma events_in_catalog props pm (evs : list FormEvent) st :
  Forall (enabled props pm) evs →
  checkedMilestones st ⊆ milestone_id <$> default [] pm →
  checkedMilestones (foldl handleEvent st evs)
  ⊆ milestone_id <$> default [] pm.
Proof.
  intros Hall. revert st. induction Hall as [|ev evs Hev _ IH]; intros st Hst.
  - done.
  - simpl. apply IH. by apply (handleEvent_in_catalog props pm st ev _ eq_refl).
Qed.

(** X2. When the inherited milestones and those of the report are milestones
    of the loaded catalog, every state the form reaches through its enabled
    checkboxes has distinct checked ids of the catalog: the number of checked
    ids never exceeds the size of the catalog. *)
Theorem checked_within_catalog (props : ReportFormProps)
    (pm : list Milestone) (evs : list FormEvent) :
  checkedMilestones (initialState props) ⊆ milestone_id <$> pm →
  Forall (enabled props (Some pm)) evs →
  fresh_checks (initialState props) evs →
  let st := foldl handleEvent (initialState props) evs in
  checkedMilestones st ⊆ milestone_id <$> pm
  ∧ NoDup (checkedMilestones st)
  ∧ (length (checkedMilestones st) ≤ length pm)%nat.
Proof.
  intros Hinit Hen Hfresh st.
  assert (Hsub : checkedMilestones st ⊆ milestone_id <$> pm)
    by (by apply (events_in_catalog props (Some pm))).
  assert (Hnd : NoDup (checkedMilestones st))
    by (apply fresh_checks_NoDup; [done|apply NoDup_Set_from]).
  split; [done|]. split; [done|].
  rewrite <- (length_fmap milestone_id pm).
  apply submseteq_length. by apply NoDup_submseteq.
Qed.

Lemma checked_within_catalog_witness :
  let props :=
    mkProps Scenario.project
      (with_id "r2" (Scenario.report 2 33 ["a"] "T1")) ["a"] in
  let pm := milestone_named <$> ["a"; "b"; "c"] in
  let evs := [onCheckedChange "b" true; onCheckedChange "c" true;
              onCheckedChange "b" false] in
  let st := foldl handleEvent (initialState props) evs in
  checkedMilestones st ⊆ milestone_id <$> pm
  ∧ NoDup (checkedMilestones st)
  ∧ (length (checkedMilestones st) ≤ length pm)%nat.
Proof.
  intros props pm evs.
  apply (checked_within_catalog props pm evs).
  - apply (bool_decide_unpack _). vm_compute. reflexivity.
  - apply (bool_decide_unpack _). vm_compute. reflexivity.
  - simpl. repeat split; apply (bool_decide_unpack _); vm_compute; reflexivity.
Defined.

(** ** What a save writes *)

Lemma saveReportAndProject_valid zm env props pm mark st fs :
  valid_draft (reportDataForValidation pm st) →
  saveReportAndProject zm env props pm mark st fs
  = let final :=
      finalReportData env (p_report props) (reportDataForValidation pm st) in
    let rp := reportPromise env props final fs in
    let pp := if mark then projectUpdatePromise env props rp.2
              else (None, rp.2) in
    (setIsSubmitting false
       (setShowCompletionDialog false (setIsSubmitting true st)),
     pp.2, save_effects props mark (rp.1 ∪ pp.1)).
Proof.
  intros Hv. unfold saveReportAndProject.
  change (reportDataForValidation pm
            (setShowCompletionDialog false (setIsSubmitting true st)))
    with (reportDataForValidation pm st).
  apply (safeParse_spec zm) in Hv. by rewrite Hv.
Qed.

Lemma saveReportAndProject_invalid zm env props pm mark st fs :
  ¬ valid_draft (reportDataForValidation pm st) →
  ∃ description,
    saveReportAndProject zm env props pm mark st fs
    = (setIsSubmitting false
         (setShowCompletionDialog false (setIsSubmitting true st)),
       fs, [toast (Some "destructive") "Validation Error" description]).
Proof.
  intros Hinv. unfold saveReportAndProject.
  change (reportDataForValidation pm
            (setShowCompletionDialog false (setIsSubmitting true st)))
    with (reportDataForValidation pm st).
  destruct (safeParse zm (reportDataForValidation pm st)) as [errs|data] eqn:Hp;
    [eauto|].
  exfalso. apply Hinv. apply (safeParse_spec zm).
  unfold safeParse in *. by destruct (fieldErrors zm _).
Qed.

(** The status update either fails and leaves the store as it is, or sets the
    status of the existing project document. *)
Lemma projectUpdatePromise_cases env props fs :
  let pid := project_id (p_project props) in
  let r := projectUpdatePromise env props fs in
  (is_Some r.1 ∧ r.2 = fs
   ∧ (project_verdict env = None → fs_projects fs !! pid = None))
  ∨ (r.1 = None ∧ project_verdict env = None
     ∧ ∃ p, fs_projects fs !! pid = Some p
            ∧ r.2 = set_projects fs
                      (<[pid := set_status_Completed p]> (fs_projects fs))).
Proof.
  intros pid r. subst r pid. unfold projectUpdatePromise, updateDoc.
  destruct (project_verdict env) as [e|]; simpl.
  - left. split; [eauto|]. split; [done|]. discriminate.
  - destruct (fs_projects fs !! project_id (p_project props)) as [p|] eqn:Hp;
      simpl.
    + right. eauto.
    + left. split; [eauto|]. done.
Qed.

Lemma reportPromise_milestones env props final fs :
  fs_milestones (reportPromise env props final fs).2 = fs_milestones fs.
Proof.
  destruct (reportPromise_cases env props final fs) as [[_ ->]|(_ & _ & ->)];
    done.
Qed.

Lemma projectUpdatePromise_milestones env props fs :
  fs_milestones (projectUpdatePromise env props fs).2 = fs_milestones fs.
Proof.
  destruct (projectUpdatePromise_cases env props fs)
    as [(_ & -> & _)|(_ & _ & p & _ & ->)]; done.
Qed.

(** What a save leaves in the project documents: nothing new, or the status
    of the project of the form set to Completed. *)
Lemma saveReportAndProject_project_docs zm env props pm mark st fs :
  let pid := project_id (p_project props) in
  let fs' := (saveReportAndProject zm env props pm mark st fs).1.2 in
  fs_projects fs' = fs_projects fs
  ∨ (mark = true
     ∧ ∃ p, fs_projects fs !! pid = Some p
            ∧ fs_projects fs' = <[pid := set_status_Completed p]> (fs_projects fs)).
Proof.
  intros pid fs'. subst fs' pid. unfold saveReportAndProject.
  destruct (safeParse zm _) as [errs|data]; [by left|].
  cbv zeta. cbn [fst snd]. destruct mark; cbn [fst snd].
  - set (final := finalReportData _ _ _).
    destruct (projectUpdatePromise_cases env props
                (reportPromise env props final fs).2)
      as [(_ & -> & _)|(_ & _ & p & Hp & ->)].
    + left. apply reportPromise_projects.
    + right. split; [done|]. rewrite reportPromise_projects in Hp.
      exists p. split; [done|]. simpl. by rewrite reportPromise_projects.
  - left. apply reportPromise_projects.
Qed.

(** X3. A save changes nothing but the document of the report and, when the
    completion was confirmed, the status of the project of the form: the
    milestone catalog, the reports of other projects, the other reports of
    the project and the other project documents are as before; it creates no
    project document; without confirmation no project document changes. *)
Theorem saveReportAndProject_frame zm env props pm mark st fs :
  let pid := project_id (p_project props) in
  let fs' := (saveReportAndProject zm env props pm mark st fs).1.2 in
  fs_milestones fs' = fs_milestones fs
  ∧ (∀ q, q ≠ pid → reportsCollection fs' q = reportsCollection fs q)
  ∧ (∀ k, k ≠ report_key env props →
          reportsCollection fs' pid !! k = reportsCollection fs pid !! k)
  ∧ (∀ q, q ≠ pid → fs_projects fs' !! q = fs_projects fs !! q)
  ∧ (∀ p', fs_projects fs' !! pid = Some p' →
       ∃ p, fs_projects fs !! pid = Some p
            ∧ (p' = p ∨ p' = set_status_Completed p))
  ∧ (mark = false → fs_projects fs' = fs_projects fs).
Proof.
  intros pid fs'.
  split.
  { subst fs'. unfold saveReportAndProject.
    destruct (safeParse zm _) as [errs|data]; [done|].
    cbv zeta. cbn [fst snd]. destruct mark; cbn [fst snd].
    - by rewrite projectUpdatePromise_milestones, reportPromise_milestones.
    - apply reportPromise_milestones. }
  destruct (saveReportAndProject_reports zm env props pm mark st fs)
    as [Hsame|(_ & _ & Hnew)]; fold fs' in Hsame || fold fs' in Hnew.
  - split; [by intros q _|]. split; [intros k _; by rewrite Hsame|].
    destruct (saveReportAndProject_project_docs zm env props pm mark st fs)
      as [Hp|(Hm & p & Hp & Hp')]; fold fs' in Hp || fold fs' in Hp'.
    + rewrite Hp. split; [done|]. split; [eauto|done].
    + fold pid in Hp, Hp'. rewrite Hp'. split.
      { intros q Hq. by rewrite lookup_insert_ne. }
      split; [|by rewrite Hm].
      intros p'. rewrite lookup_insert_eq. intros [= <-]. eauto.
  - split.
    { intros q Hq. rewrite Hnew. fold pid. by destruct (decide (pid = q)). }
    split.
    { intros k Hk. rewrite Hnew. fold pid.
      destruct (decide (pid = pid)); [|done]. by rewrite lookup_insert_ne. }
    destruct (saveReportAndProject_project_docs zm env props pm mark st fs)
      as [Hp|(Hm & p & Hp & Hp')]; fold fs' in Hp || fold fs' in Hp'.
    + rewrite Hp. split; [done|]. split; [eauto|done].
    + fold pid in Hp, Hp'. rewrite Hp'. split.
      { intros q Hq. by rewrite lookup_insert_ne. }
      split; [|by rewrite Hm].
      intros p'. rewrite lookup_insert_eq. intros [= <-]. eauto.
Qed.

Lemma projectUpdatePromise_accepted env props fs (p : Project) :
  project_verdict env = None →
  fs_projects fs !! project_id (p_project props) = Some p →
  projectUpdatePromise env props fs
  = (None,
     set_projects fs
       (<[project_id (p_project props) := set_status_Completed p]>
          (fs_projects fs))).
Proof.
  intros Hv Hp. unfold projectUpdatePromise, updateDoc. by rewrite Hv, Hp.
Qed.

(** X4. Confirming the completion of a valid draft, when the backend accepts
    both writes: the report is stored with the checked milestones and the
    computed progress, the project document keeps all its fields but the
    status, which is Completed, success is reported and the project page is
    opened. *)
Theorem confirm_completes zm env props pm st fs (p : Project) :
  valid_draft (reportDataForValidation pm st) →
  report_verdict env = None →
  project_verdict env = None →
  (truthy (id (p_report props)) = true →
   is_Some (reportsCollection fs (project_id (p_project props))
              !! report_key env props)) →
  fs_projects fs !! project_id (p_project props) = Some p →
  let pid := project_id (p_project props) in
  let r := confirm zm env props pm st fs in
  (∃ stored, reportsCollection r.1.2 pid !! report_key env props = Some stored
             ∧ milestones stored = checkedMilestones st
             ∧ progress stored = progressValue pm (checkedMilestones st)
             ∧ summary stored = form_summary st
             ∧ status stored = form_status st)
  ∧ fs_projects r.1.2 !! pid
    = Some (mkProject (project_id p) (project_name p) (clientId p)
              (managerId p) (projectType p) (startDate p)
              (estimatedEndDate p) "Completed")
  ∧ ∃ description,
      r.2 = [toast None "Success" description; router_push ("/projects/" +:+ pid)].
Proof.
  intros Hv Hrv Hpv Hex Hp pid r. subst r. unfold confirm.
  rewrite saveReportAndProject_valid by done. cbv zeta.
  rewrite reportPromise_accepted by done. cbn [fst snd].
  rewrite (projectUpdatePromise_accepted env props _ p) by done.
  cbn [fst snd]. fold pid. split.
  - eexists. split.
    + rewrite reportsCollection_set_projects, reportsCollection_set.
      destruct (decide (pid = pid)); [|done]. apply lookup_insert_eq.
    + done.
  - split; [apply lookup_insert_eq|]. unfold save_effects. simpl. eauto.
Qed.

Lemma confirm_completes_witness :
  let fs := Scenario.store [] ["a"; "b"] in
  let pm := Some (milestonesQuery fs Scenario.project) in
  let props :=
    mkProps Scenario.project
      (newReportObject Scenario.env Scenario.project 1) [] in
  let st := mkFormState "Array wired" "On Track" ["a"; "b"] true false in
  let r := confirm Scenario.zod Scenario.env props pm st fs in
  (∃ stored, reportsCollection r.1.2 "p1" !! "r9" = Some stored
             ∧ milestones stored = ["a"; "b"]
             ∧ progress stored = progressValue pm ["a"; "b"]
             ∧ summary stored = "Array wired"
             ∧ status stored = "On Track")
  ∧ fs_projects r.1.2 !! "p1"
    = Some (mkProject "p1" "Roof" "c1" "u1" "solar-roof" "2024-01-01"
              "2024-12-31" "Completed")
  ∧ ∃ description,
      r.2 = [toast None "Success" description; router_push "/projects/p1"].
Proof.
  intros fs pm props st.
  apply (confirm_completes Scenario.zod Scenario.env props pm st fs
           Scenario.project).
  - split; [discriminate|]. split; [apply list_elem_of_here|].
    split; vm_compute; reflexivity.
  - reflexivity.
  - reflexivity.
  - intros H. vm_compute in H. discriminate.
  - vm_compute. reflexivity.
Defined.

(** X5. The report write and the status update of a confirmed completion are
    decided one by one: each takes effect when the backend accepts it and its
    document exists, whatever happens to the other.  A refused status update
    leaves the report stored; a refused report write leaves the project
    marked Completed. *)
Theorem confirm_writes_independent zm env props pm st fs (p : Project) :
  valid_draft (reportDataForValidation pm st) →
  fs_projects fs !! project_id (p_project props) = Some p →
  let pid := project_id (p_project props) in
  let final :=
    finalReportData env (p_report props) (reportDataForValidation pm st) in
  let fs' := (confirm zm env props pm st fs).1.2 in
  (report_verdict env = None →
   (truthy (id (p_report props)) = true →
    is_Some (reportsCollection fs pid !! report_key env props)) →
   reportsCollection fs' pid !! report_key env props = Some final)
  ∧ (is_Some (report_verdict env) →
     reportsCollection fs' pid = reportsCollection fs pid)
  ∧ (project_verdict env = None →
     fs_projects fs' !! pid = Some (set_status_Completed p))
  ∧ (is_Some (project_verdict env) → fs_projects fs' = fs_projects fs).
Proof.
  intros Hv Hp pid final fs'. subst fs'. unfold confirm.
  rewrite saveReportAndProject_valid by done. cbv zeta. cbn [fst snd].
  fold final.
  assert (Hp1 : fs_projects (reportPromise env props final fs).2 !! pid
                = Some p) by (by rewrite reportPromise_projects).
  split; [|split; [|split]].
  - intros Hrv Hex. rewrite projectUpdatePromise_reports.
    rewrite reportPromise_accepted by done. cbn [fst snd].
    rewrite reportsCollection_set. fold pid.
    destruct (decide (pid = pid)); [|done]. apply lookup_insert_eq.
  - intros [e He]. rewrite projectUpdatePromise_reports.
    unfold reportPromise, addDoc, updateDoc. rewrite He.
    by destruct (negb _).
  - intros Hpv.
    rewrite (projectUpdatePromise_accepted env props _ p) by done.
    cbn [fst snd]. apply lookup_insert_eq.
  - intros [e He]. unfold projectUpdatePromise, updateDoc. rewrite He.
    cbn [fst snd settle]. apply reportPromise_projects.
Qed.

Lemma confirm_writes_independent_witness :
  let fs := Scenario.store [] ["a"; "b"] in
  let env := mkEnv "2024-05-02T08:00:00.000Z" "r9" None
                   (Some Scenario.permission_denied) None None in
  let pm := Some (milestonesQuery fs Scenario.project) in
  let props :=
    mkProps Scenario.project (newReportObject env Scenario.project 1) [] in
  let st := mkFormState "Array wired" "On Track" ["a"; "b"] true false in
  let fs' := (confirm Scenario.zod env props pm st fs).1.2 in
  reportsCollection fs' "p1" = reportsCollection fs "p1"
  ∧ fs_projects fs' !! "p1" = Some (set_status_Completed Scenario.project).
Proof.
  intros fs env pm props st fs'.
  destruct (confirm_writes_independent Scenario.zod env props pm st fs
              Scenario.project) as (_ & Hr & Hp & _).
  - split; [discriminate|]. split; [apply list_elem_of_here|].
    split; vm_compute; reflexivity.
  - vm_compute. reflexivity.
  - split; [apply Hr; simpl; eauto|apply Hp; reflexivity].
Defined.

Lemma reportPromise_ok env props final fs :
  (reportPromise env props final fs).1 = None
  ↔ report_verdict env = None
    ∧ (truthy (id (p_report props)) = true →
       is_Some (reportsCollection fs (project_id (p_project props))
                  !! report_key env props)).
Proof.
  unfold reportPromise, report_key, addDoc, updateDoc.
  destruct (report_verdict env) as [e|]; simpl.
  { destruct (truthy _); simpl; split; try done; by intros [? _]. }
  destruct (truthy (id (p_report props))); simpl.
  - destruct (reportsCollection _ _ !! _) as [old|]; simpl.
    + split; [eauto|done].
    + split; [done|]. intros [_ H]. by destruct (H eq_refl).
  - split; [|done]. intros _. split; [done|discriminate].
Qed.

Lemma projectUpdatePromise_ok env props fs :
  (projectUpdatePromise env props fs).1 = None
  ↔ project_verdict env = None
    ∧ is_Some (fs_projects fs !! project_id (p_project props)).
Proof.
  unfold projectUpdatePromise, updateDoc.
  destruct (project_verdict env) as [e|]; simpl.
  { split; [done|by intros [? _]]. }
  destruct (fs_projects fs !! _) as [p|]; simpl.
  - split; [eauto|done].
  - split; [done|]. intros [_ [? ?]]. done.
Qed.

Lemma save_effects_push props mark (error : option FirestoreError) :
  (∃ path, router_push path ∈ save_effects props mark error) ↔ error = None.
Proof.
  unfold save_effects. destruct error as [e|].
  - split; [|done]. intros [path Hin]. destruct (decide (code e = _));
      apply list_elem_of_singleton in Hin; discriminate.
  - split; [done|]. intros _. eexists. apply list_elem_of_further, list_elem_of_here.
Qed.

Lemma first_error_None (e1 e2 : option FirestoreError) :
  e1 ∪ e2 = None ↔ e1 = None ∧ e2 = None.
Proof. destruct e1, e2; simpl; split; try done; by intros [? ?]. Qed.

(** X6. A save opens the project page exactly when the draft validates and
    every write it issues succeeds: the report write is accepted (and, for an
    edit, the document still exists) and, when the completion was confirmed,
    so is the status update of an existing project document. *)
Theorem save_navigates_iff_success zm env props pm mark st fs :
  let pid := project_id (p_project props) in
  (∃ path, router_push path
           ∈ (saveReportAndProject zm env props pm mark st fs).2)
  ↔ valid_draft (reportDataForValidation pm st)
    ∧ report_verdict env = None
    ∧ (truthy (id (p_report props)) = true →
       is_Some (reportsCollection fs pid !! report_key env props))
    ∧ (mark = true →
       project_verdict env = None ∧ is_Some (fs_projects fs !! pid)).
Proof.
  intros pid.
  destruct (decide (valid_draft (reportDataForValidation pm st))) as [Hv|Hinv].
  - rewrite saveReportAndProject_valid by done. cbv zeta. cbn [fst snd].
    rewrite save_effects_push, first_error_None.
    set (final := finalReportData _ _ _).
    rewrite (reportPromise_ok env props final fs). fold pid.
    destruct mark; cbn [fst snd].
    + rewrite projectUpdatePromise_ok, reportPromise_projects. fold pid.
      split.
      * intros ((Hrv & Hex) & Hpv & Hp). done.
      * intros (_ & Hrv & Hex & Hm). destruct (Hm eq_refl). done.
    + split.
      * intros ((Hrv & Hex) & _). done.
      * intros (_ & Hrv & Hex & _). done.
  - destruct (saveReportAndProject_invalid zm env props pm mark st fs Hinv)
      as [d ->]. cbn [snd]. split.
    + intros [path Hin]. apply list_elem_of_singleton in Hin. discriminate.
    + intros [Hv _]. done.
Qed.

(** X7. Editing a stored report never renumbers it, moves it to another
    project or adds a document: after any save of the form opened on the
    report, the collection has the same document ids and the document of the
    report has the week and the project id it had. *)
Theorem edit_keeps_identity zm env fs project reportNumber
    (rid : string) (r0 : WeeklyReport) :
  reportsCollection fs (project_id project) !! rid = Some r0 →
  rid ≠ "" →
  ∃ props,
    ReportFormLoader env fs project reportNumber (Some rid) = Some props
    ∧ ∀ pm mark st,
        let coll' :=
          reportsCollection
            (saveReportAndProject zm env props pm mark st fs).1.2
            (project_id project) in
        dom coll' = dom (reportsCollection fs (project_id project))
        ∧ ∃ r', coll' !! rid = Some r'
                ∧ week r' = week r0 ∧ projectId r' = projectId r0.
Proof.
  intros Hr0 Hrid. eexists. split; [by apply ReportFormLoader_edit|].
  intros pm mark st. set (props := mkProps _ _ _).
  assert (Hkey : report_key env props = rid).
  { unfold report_key, props. simpl.
    by rewrite (bool_decide_eq_true_2 (rid ≠ "")). }
  destruct (saveReportAndProject_reports zm env props pm mark st fs)
    as [Hsame|(_ & _ & Hnew)]; cbv zeta.
  - rewrite Hsame. split; [done|]. eauto.
  - rewrite Hnew. simpl. destruct (decide (project_id project = project_id project));
      [|done].
    rewrite Hkey. split.
    + rewrite dom_insert_L. apply elem_of_dom_2 in Hr0.
      apply (anti_symm (⊆)).
      * apply union_least; [by apply singleton_subseteq_l|done].
      * apply union_subseteq_r.
    + eexists. rewrite lookup_insert_eq. split; [done|]. done.
Qed.

Lemma edit_keeps_identity_witness :
  let fs := Scenario.store [("r1", Scenario.report 1 50 ["a"] "T0");
                            ("r2", Scenario.report 2 50 ["a"] "T1")]
                           ["a"; "b"] in
  ∃ props,
    ReportFormLoader Scenario.env fs Scenario.project 7 (Some "r2")
    = Some props
    ∧ ∀ pm mark st,
        let coll' :=
          reportsCollection
            (saveReportAndProject Scenario.zod Scenario.env props pm mark
               st fs).1.2
            (project_id Scenario.project) in
        dom coll' = dom (reportsCollection fs (project_id Scenario.project))
        ∧ ∃ r', coll' !! "r2" = Some r' ∧ week r' = 2 ∧ projectId r' = "p1".
Proof.
  intros fs.
  apply (edit_keeps_identity Scenario.zod Scenario.env fs Scenario.project 7
           "r2" (Scenario.report 2 50 ["a"] "T1")).
  - vm_compute. reflexivity.
  - discriminate.
Defined.



(** X9. Saving an edit of a report whose document is no longer there writes
    no report: the update is refused as not found, the report collection is
    as before, and the failure is shown as an error, neither as a missing
    permission nor as a success. *)
Theorem edit_of_missing_report zm env props pm mark st fs :
  truthy (id (p_report props)) = true →
  reportsCollection fs (project_id (p_project props))
    !! report_key env props = None →
  report_verdict env = None →
  valid_draft (reportDataForValidation pm st) →
  let r := saveReportAndProject zm env props pm mark st fs in
  (∀ q, reportsCollection r.1.2 q = reportsCollection fs q)
  ∧ ∃ description, r.2 = [toast (Some "destructive") "Error" description].
Proof.
  intros Hid Hmiss Hrv Hv r. subst r.
  rewrite saveReportAndProject_valid by done. cbv zeta. cbn [fst snd].
  set (final := finalReportData _ _ _).
  assert (Hrp : reportPromise env props final fs = (Some not_found, fs)).
  { unfold reportPromise, updateDoc, report_key in *. rewrite Hid in *.
    simpl. by rewrite Hrv, Hmiss. }
  rewrite Hrp. cbn [fst snd]. split.
  - intros q. destruct mark; cbn [snd]; [|done].
    apply projectUpdatePromise_reports.
  - assert (Herr : ∀ o : option FirestoreError,
              Some not_found ∪ o = Some not_found) by (by intros [?|]).
    rewrite Herr. unfold save_effects. simpl. eauto.
Qed.

Lemma edit_of_missing_report_witness :
  let fs := Scenario.store [("r1", Scenario.report 1 50 ["a"] "T0")]
                           ["a"; "b"; "c"] in
  let pm := Some (milestonesQuery fs Scenario.project) in
  let props :=
    mkProps Scenario.project
      (with_id "r2" (Scenario.report 2 50 ["a"] "T1")) ["a"] in
  let r := saveReportAndProject Scenario.zod Scenario.env props pm false
             (initialState props) fs in
  (∀ q, reportsCollection r.1.2 q = reportsCollection fs q)
  ∧ ∃ description, r.2 = [toast (Some "destructive") "Error" description].
Proof.
  intros fs pm props.
  apply (edit_of_missing_report Scenario.zod Scenario.env props pm false
           (initialState props) fs).
  - reflexivity.
  - vm_compute. reflexivity.
  - reflexivity.
  - split; [discriminate|]. split; [apply list_elem_of_here|].
    split; vm_compute; reflexivity.
Defined.

(** ** Progress and validation *)

Lemma in_range_of_Z (z : Z) : 0 ≤ z ≤ 100 → in_range (Js.of_Z z).
Proof.
  intros Hz. destruct in_range_examples as [Hall _].
  rewrite Forall_forall in Hall. apply Hall.
  apply list_elem_of_fmap. exists (Z.to_nat z). split; [lia|].
  apply list_elem_of_In, in_seq. lia.
Qed.

Lemma above_range_table :
  all_below (λ n, negb (Js.leb (Js.of_Z (101 + Z.of_nat n)) (Js.of_Z 100))) 100
  = true.
Proof. vm_compute. reflexivity. Qed.

Lemma not_in_range_of_Z (z : Z) : 100 < z ≤ 200 → ¬ in_range (Js.of_Z z).
Proof.
  intros Hz [_ Hle].
  pose proof (all_below_spec _ 100 above_range_table (Z.to_nat (z - 101))
                ltac:(lia)) as H.
  cbv beta in H.
  replace (101 + Z.of_nat (Z.to_nat (z - 101))) with z in H by lia.
  rewrite Hle in H. discriminate.
Qed.

(** X10. When more ids are checked than the catalog has milestones (ids
    inherited from earlier weeks that are no longer in the catalog), the
    computed progress is above 100 and the form cannot be saved: shown for
    catalogs of fewer than 40 milestones and up to twice as many checked
    ids.  The save ends in a validation error and writes nothing. *)
Theorem overfull_checked_blocks_save zm env props (pm : list Milestone)
    mark st fs :
  (0 < length pm < 40)%nat →
  (length pm < length (checkedMilestones st) ≤ 2 * length pm)%nat →
  ¬ in_range (progressValue (Some pm) (checkedMilestones st))
  ∧ ∃ description,
      saveReportAndProject zm env props (Some pm) mark st fs
      = (setIsSubmitting false
           (setShowCompletionDialog false (setIsSubmitting true st)),
         fs, [toast (Some "destructive") "Validation Error" description]).
Proof.
  intros Hn Hk.
  assert (Hout : ¬ in_range (progressValue (Some pm) (checkedMilestones st))).
  { unfold progressValue.
    destruct (decide (length pm = 0%nat)) as [|_]; [lia|].
    fold (percent_of_counts (length (checkedMilestones st)) (length pm)).
    rewrite agrees_small by lia. apply not_in_range_of_Z.
    unfold round_half_up_percent.
    set (k := Z.of_nat (length (checkedMilestones st))).
    set (n := Z.of_nat (length pm)).
    assert (101 ≤ (200 * k + n) `div` (2 * n))
      by (apply Z.div_le_lower_bound; lia).
    assert ((200 * k + n) `div` (2 * n) < 201)
      by (apply Z.div_lt_upper_bound; lia).
    lia. }
  split; [done|].
  apply saveReportAndProject_invalid. intros (_ & _ & Hr). by apply Hout.
Qed.

Lemma overfull_checked_blocks_save_witness :
  let fs := Scenario.store [("r1", Scenario.report 1 100 ["a"; "b"; "c"] "T0")]
                           ["a"; "b"] in
  let pm := milestone_named <$> ["a"; "b"] in
  let props :=
    mkProps Scenario.project
      (newReportObject Scenario.env Scenario.project 2) ["a"; "b"; "c"] in
  let st := setSummary "Inverter set" (initialState props) in
  ¬ in_range (progressValue (Some pm) (checkedMilestones st))
  ∧ ∃ description,
      saveReportAndProject Scenario.zod Scenario.env props (Some pm) false
        st fs
      = (setIsSubmitting false
           (setShowCompletionDialog false (setIsSubmitting true st)),
         fs, [toast (Some "destructive") "Validation Error" description]).
Proof.
  intros fs pm props st.
  apply (overfull_checked_blocks_save Scenario.zod Scenario.env props pm false
           st fs).
  - vm_compute. lia.
  - vm_compute. lia.
Defined.

Lemma progressValue_in_range (pm : option (list Milestone))
    (checked : list string) :
  (from_option length 0 pm ≤ 100)%nat →
  (from_option length 0 pm = 0 ∨ length checked ≤ from_option length 0 pm)%nat →
  in_range (progressValue pm checked).
Proof.
  intros Hn Hk. destruct pm as [pm|]; cbn [from_option] in *;
    [|by apply (in_range_of_Z 0)].
  destruct (decide (length pm = 0%nat)) as [Hz|Hnz].
  { unfold progressValue. destruct (decide (length pm = 0%nat)); [|done].
    by apply (in_range_of_Z 0). }
  destruct Hk as [|Hk]; [done|].
  destruct (progressValue_off_ties pm checked ltac:(lia) ltac:(lia))
    as [->|[Htie ->]].
  - apply in_range_of_Z. unfold round_half_up_percent.
    set (k := Z.of_nat (length checked)). set (n := Z.of_nat (length pm)).
    assert (0 ≤ (200 * k + n) `div` (2 * n)) by (apply Z.div_pos; lia).
    assert ((200 * k + n) `div` (2 * n) < 101)
      by (apply Z.div_lt_upper_bound; lia).
    lia.
  - apply in_range_of_Z. unfold round_half_up_percent.
    set (k := Z.of_nat (length checked)) in *.
    set (n := Z.of_nat (length pm)) in *.
    assert (0 < k).
    { destruct (decide (k = 0)) as [Hk0|]; [|lia]. rewrite Hk0 in Htie.
      rewrite Z.mul_0_r, Z.mod_0_l in Htie by lia. lia. }
    assert (1 ≤ (200 * k + n) `div` (2 * n))
      by (apply Z.div_le_lower_bound; lia).
    assert ((200 * k + n) `div` (2 * n) < 101)
      by (apply Z.div_lt_upper_bound; lia).
    lia.
Qed.

(** X11. With a catalog of at most 100 milestones (or none) and no more
    checked ids than the catalog has milestones, the computed progress lies in
    [0, 100]: a draft with a summary and an allowed status passes the
    validation, whatever milestones are checked. *)
Theorem draft_with_summary_is_valid (pm : option (list Milestone))
    (st : FormState) :
  (from_option length 0 pm ≤ 100)%nat →
  (from_option length 0 pm = 0
   ∨ length (checkedMilestones st) ≤ from_option length 0 pm)%nat →
  form_summary st ≠ "" →
  form_status st ∈ allowed_status →
  valid_draft (reportDataForValidation pm st).
Proof.
  intros Hn Hk Hs Hst. split; [done|]. split; [done|].
  by apply progressValue_in_range.
Qed.

Lemma draft_with_summary_is_valid_witness :
  valid_draft
    (reportDataForValidation (Some (milestone_named <$> ["a"; "b"; "c"]))
       (mkFormState "Inverter set" "Off Track" ["a"; "c"] false false)).
Proof.
  apply draft_with_summary_is_valid.
  - simpl. lia.
  - right. simpl. lia.
  - discriminate.
  - do 2 apply list_elem_of_further. apply list_elem_of_here.
Defined.

Lemma progressValue_all_checked (pm : list Milestone)
    (checked : list string) :
  (0 < length pm ≤ 100)%nat → length checked = length pm →
  progressValue (Some pm) checked = Js.of_Z 100.
Proof.
  intros Hn Hlen.
  assert (Hr : round_half_up_percent (Z.of_nat (length pm))
                 (Z.of_nat (length pm)) = 100).
  { unfold round_half_up_percent.
    replace (200 * Z.of_nat (length pm) + Z.of_nat (length pm))
      with (Z.of_nat (length pm) + 100 * (2 * Z.of_nat (length pm))) by lia.
    rewrite Z.div_add by lia. rewrite Z.div_small by lia. done. }
  destruct (progressValue_off_ties pm checked ltac:(lia) ltac:(lia))
    as [->|[Htie _]].
  - by rewrite Hlen, Hr.
  - exfalso. rewrite Hlen in Htie.
    replace (200 * Z.of_nat (length pm))
      with (0 + 100 * (2 * Z.of_nat (length pm))) in Htie by lia.
    rewrite Z.mod_add in Htie by lia. rewrite Z.mod_0_l in Htie by lia. lia.
Qed.

(** X12. When submitting opens the completion dialog on a catalog of 1 to 100
    milestones, the progress of the draft is exactly 100, and so is the
    progress of the report that either button of the dialog stores: a button
    either leaves the reports as they are or stores, under the key of the
    report, a report with progress 100 and the checked milestones; it does
    store it when the draft has a summary and an allowed status and the
    backend accepts the write of a report that is new or still there. *)
Theorem completion_offered_at_100 zm env (props : ReportFormProps)
    (pm : list Milestone) (st : FormState) fs :
  (0 < length pm ≤ 100)%nat →
  allMilestonesCompleted (p_project props) (Some pm) st = true →
  let pid := project_id (p_project props) in
  progressValue (Some pm) (checkedMilestones st) = Js.of_Z 100
  ∧ ∀ confirmed : bool,
      let fs' :=
        ((if confirmed then confirm else decline)
           zm env props (Some pm) st fs).1.2 in
      ((∀ q, reportsCollection fs' q = reportsCollection fs q)
       ∨ ∃ final,
           progress final = Js.of_Z 100
           ∧ milestones final = checkedMilestones st
           ∧ reportsCollection fs' pid
             = <[report_key env props := final]> (reportsCollection fs pid))
      ∧ (form_summary st ≠ "" → form_status st ∈ allowed_status →
         report_verdict env = None →
         (truthy (id (p_report props)) = true →
          is_Some (reportsCollection fs pid !! report_key env props)) →
         ∃ final,
           reportsCollection fs' pid !! report_key env props = Some final
           ∧ progress final = Js.of_Z 100
           ∧ milestones final = checkedMilestones st).
Proof.
  intros Hn Hall pid.
  apply allMilestonesCompleted_spec in Hall as [Hlen _].
  pose proof (progressValue_all_checked pm (checkedMilestones st) Hn Hlen)
    as Hp.
  split; [exact Hp|]. intros confirmed fs'.
  assert (Hfs' : fs' = (saveReportAndProject zm env props (Some pm) confirmed
                          st fs).1.2).
  { subst fs'. by destruct confirmed. }
  clearbody fs'. subst fs'. split.
  - destruct (saveReportAndProject_reports zm env props (Some pm) confirmed
                st fs) as [Hsame|(_ & _ & Hw)]; [by left|].
    right.
    exists (finalReportData env (p_report props)
              (reportDataForValidation (Some pm) st)).
    split; [exact Hp|]. split; [reflexivity|].
    rewrite (Hw pid). fold pid. by destruct (decide (pid = pid)).
  - intros Hs Ha Hrv Hex.
    assert (Hv : valid_draft (reportDataForValidation (Some pm) st)).
    { split; [exact Hs|]. split; [exact Ha|].
      change (in_range (progressValue (Some pm) (checkedMilestones st))).
      rewrite Hp. by apply (in_range_of_Z 100). }
    rewrite saveReportAndProject_valid by exact Hv. cbv zeta. cbn [fst snd].
    rewrite reportPromise_accepted by done. cbn [fst snd].
    exists (finalReportData env (p_report props)
              (reportDataForValidation (Some pm) st)).
    split; [|split; [exact Hp|reflexivity]].
    destruct confirmed; cbn [fst snd].
    + rewrite projectUpdatePromise_reports, reportsCollection_set.
      fold pid. destruct (decide (pid = pid)); [|done].
      by rewrite lookup_insert_eq.
    + rewrite reportsCollection_set.
      fold pid. destruct (decide (pid = pid)); [|done].
      by rewrite lookup_insert_eq.
Qed.

Lemma completion_offered_at_100_witness :
  let pm := milestone_named <$> ["a"; "b"; "c"] in
  let st := mkFormState "Done" "On Track" ["a"; "b"; "c"] false false in
  let fs := Scenario.store [] ["a"; "b"; "c"] in
  let props :=
    mkProps Scenario.project
      (newReportObject Scenario.env Scenario.project 1) [] in
  progressValue (Some pm) (checkedMilestones st) = Js.of_Z 100
  ∧ ∀ confirmed : bool,
      let fs' :=
        ((if confirmed then confirm else decline)
           Scenario.zod Scenario.env props (Some pm) st fs).1.2 in
      ((∀ q, reportsCollection fs' q = reportsCollection fs q)
       ∨ ∃ final,
           progress final = Js.of_Z 100
           ∧ milestones final = checkedMilestones st
           ∧ reportsCollection fs' "p1"
             = <[report_key Scenario.env props := final]>
                 (reportsCollection fs "p1"))
      ∧ (form_summary st ≠ "" → form_status st ∈ allowed_status →
         report_verdict Scenario.env = None →
         (truthy (id (p_report props)) = true →
          is_Some (reportsCollection fs "p1"
                     !! report_key Scenario.env props)) →
         ∃ final,
           reportsCollection fs' "p1" !! report_key Scenario.env props
           = Some final
           ∧ progress final = Js.of_Z 100
           ∧ milestones final = checkedMilestones st).
Proof.
  intros pm st fs props.
  apply (completion_offered_at_100 Scenario.zod Scenario.env props pm st fs).
  - simpl. lia.
  - vm_compute. reflexivity.
Defined.

(** ** The loader and the inherited floor *)

Lemma truthy_Some (x : option string) :
  truthy x = true ↔ ∃ k, x = Some k ∧ k ≠ "".
Proof.
  destruct x as [k|]; simpl.
  - rewrite bool_decide_eq_true. split; [eauto|]. by intros (? & [= <-] & ?).
  - split; [done|]. by intros (? & ? & _).
Qed.

(** X13. The loader throws exactly when a report id is given and the read of
    that report fails, whether or not the report exists; it ends in "not
    found" exactly when that read does not fail and the project has no
    report under the id.  A form it renders shows a blank report of the week
    of the page or the stored report with the floor of the week stored in
    it, and can be saved on the store it was loaded from: a valid draft whose
    report write the backend accepts is stored and reported as a success,
    never as a missing document. *)
Theorem ReportFormLoader_outcomes zm env fs project reportNumber
    (reportId : option string) pm st :
  let coll := reportsCollection fs (project_id project) in
  let floor w :=
    previouslyCompletedMilestones
      (Some (previousReportsQuery fs (project_id project) w)) in
  let out := ReportFormLoader_render env fs project reportNumber reportId in
  (∀ e, out = thrown e ↔ truthy reportId = true ∧ read_verdict env = Some e)
  ∧ (out = notFound
     ↔ ∃ rid, reportId = Some rid ∧ rid ≠ "" ∧ read_verdict env = None
              ∧ coll !! rid = None)
  ∧ (∀ props, out = ReportForm props →
       ((truthy reportId = false
         ∧ props = mkProps project (newReportObject env project reportNumber)
                     (floor reportNumber))
        ∨ (∃ rid r0, reportId = Some rid ∧ rid ≠ ""
                     ∧ read_verdict env = None ∧ coll !! rid = Some r0
                     ∧ props = mkProps project (with_id rid r0)
                                 (floor (week r0))))
       ∧ (valid_draft (reportDataForValidation pm st) →
          report_verdict env = None →
          let r := saveReportAndProject zm env props pm false st fs in
          r.2 = save_effects props false None
          ∧ reportsCollection r.1.2 (project_id project)
              !! report_key env props
            = Some (finalReportData env (p_report props)
                      (reportDataForValidation pm st)))).
Proof.
  intros coll floor out. subst out. unfold ReportFormLoader_render.
  destruct (truthy reportId) eqn:Hid.
  - apply truthy_Some in Hid as (rid & -> & Hrid).
    destruct (read_verdict env) as [e|] eqn:Hread.
    { split; [|split].
      - intros e'. split; [by intros [= <-]|]. by intros [_ [= <-]].
      - split; [done|]. by intros (? & _ & _ & ? & _).
      - done. }
    destruct (coll !! rid) as [r0|] eqn:Hr0.
    + rewrite (ReportFormLoader_edit env fs project reportNumber rid r0)
        by done.
      split; [|split].
      * intros e'. split; [done|]. by intros [_ ?].
      * split; [done|]. intros (? & [= <-] & _ & _ & ?). congruence.
      * intros props [= <-]. split; [right; by exists rid, r0|].
        intros Hv Hrv. cbv zeta.
        assert (Hkey : ∀ fl, report_key env
                               (mkProps project (with_id rid r0) fl) = rid).
        { intros fl. unfold report_key. simpl.
          by rewrite (bool_decide_eq_true_2 (rid ≠ "")). }
        rewrite saveReportAndProject_accepted; [|done|done|].
        -- cbn [fst snd p_project]. split; [done|].
           rewrite reportsCollection_set.
           destruct (decide (project_id project = project_id project));
             [|done].
           by rewrite lookup_insert_eq.
        -- intros _. cbn [p_project]. rewrite Hkey. fold coll.
           by rewrite Hr0.
    + assert (Hnone : ReportFormLoader env fs project reportNumber (Some rid)
                      = None).
      { unfold ReportFormLoader, useDoc. simpl. fold coll. rewrite Hr0.
        simpl. by rewrite (bool_decide_eq_true_2 (rid ≠ "")). }
      rewrite Hnone. split; [|split].
      * intros e'. split; [done|]. by intros [_ ?].
      * split; [|done]. intros _. by exists rid.
      * done.
  - assert (Hnew : ReportFormLoader env fs project reportNumber reportId
                   = Some (mkProps project
                             (newReportObject env project reportNumber)
                             (floor reportNumber))).
    { unfold ReportFormLoader. by rewrite Hid. }
    rewrite Hnew. split; [|split].
    + intros e'. split; [done|]. by intros [? _].
    + split; [done|]. intros (rid & -> & Hrid & _).
      simpl in Hid. by rewrite (bool_decide_eq_true_2 (rid ≠ "")) in Hid.
    + intros props [= <-]. split; [by left|].
      intros Hv Hrv. cbv zeta.
      rewrite saveReportAndProject_accepted; [|done|done|done].
      cbn [fst snd p_project]. split; [done|].
      rewrite reportsCollection_set.
      destruct (decide (project_id project = project_id project)); [|done].
      by rewrite lookup_insert_eq.
Qed.

(** X14. The inherited floor only grows with the target week: every id
    inherited at a week is inherited at every later week.  At a week that no
    stored report precedes, nothing is inherited. *)
Theorem floor_grows_with_week (fs : Firestore) (pid : string) (w1 w2 : Z) :
  w1 ≤ w2 →
  let floor w :=
    previouslyCompletedMilestones (Some (previousReportsQuery fs pid w)) in
  floor w1 ⊆ floor w2
  ∧ ((∀ k r, reportsCollection fs pid !! k = Some r → w1 ≤ week r) →
     floor w1 = []).
Proof.
  intros Hw floor. split.
  - intros m Hm. apply previouslyCompletedMilestones_spec in Hm
      as (k & r & Hk & Hlt & Hin).
    apply previouslyCompletedMilestones_spec. exists k, r.
    split; [done|]. split; [lia|done].
  - intros Hfirst. destruct (floor w1) as [|m l] eqn:Hfl; [done|].
    assert (Hm : m ∈ floor w1) by (rewrite Hfl; apply list_elem_of_here).
    apply previouslyCompletedMilestones_spec in Hm
      as (k & r & Hk & Hlt & _).
    specialize (Hfirst k r Hk). lia.
Qed.

Lemma floor_grows_with_week_witness :
  let fs := Scenario.store [("r1", Scenario.report 1 33 ["a"] "T0");
                            ("r2", Scenario.report 2 66 ["a"; "b"] "T1")]
                           ["a"; "b"; "c"] in
  let floor w :=
    previouslyCompletedMilestones (Some (previousReportsQuery fs "p1" w)) in
  floor 2 ⊆ floor 3
  ∧ ((∀ k r, reportsCollection fs "p1" !! k = Some r → 2 ≤ week r) →
     floor 2 = []).
Proof.
  intros fs floor. apply (floor_grows_with_week fs "p1" 2 3). lia.
Defined.

(** ** Time elapsed *)

Lemma shr_1_nonneg (mrs : shr_record) :
  0 ≤ shr_m mrs → 0 ≤ shr_m (shr_1 mrs).
Proof.
  destruct mrs as [m r s]. destruct m as [|p|p]; simpl; [done| |lia].
  intros _. destruct p; simpl; lia.
Qed.

Lemma iter_pos_shr_1_nonneg (p : positive) (mrs : shr_record) :
  0 ≤ shr_m mrs → 0 ≤ shr_m (SpecFloat.iter_pos shr_1 p mrs).
Proof.
  revert mrs. induction p as [p IH|p IH|]; intros mrs Hm; simpl.
  - apply IH, IH. by apply shr_1_nonneg.
  - by apply IH, IH.
  - by apply shr_1_nonneg.
Qed.

Lemma shr_fexp_nonneg (m e : Z) (l : location) :
  0 ≤ m → 0 ≤ shr_m (shr_fexp Js.prec Js.emax m e l).1.
Proof.
  intros Hm. unfold shr_fexp, shr.
  assert (Hrec : 0 ≤ shr_m (shr_record_of_loc m l)).
  { destruct l as [|[]]; simpl; lia. }
  destruct (_ - e) as [|p|p]; simpl; [done| |done].
  by apply iter_pos_shr_1_nonneg.
Qed.

Lemma round_nearest_even_nonneg (m : Z) (l : location) :
  0 ≤ m → 0 ≤ round_nearest_even m l.
Proof.
  intros Hm. destruct l as [|[]]; simpl; try lia.
  destruct (Z.even m); lia.
Qed.

Lemma binary_round_aux_not_nan (sx : bool) (mx ex : Z) (lx : location) :
  0 ≤ mx → is_nan (binary_round_aux Js.prec Js.emax sx mx ex lx) = false.
Proof.
  intros Hm. unfold binary_round_aux.
  pose proof (shr_fexp_nonneg mx ex lx Hm) as H1.
  destruct (shr_fexp Js.prec Js.emax mx ex lx) as [mrs' e'].
  simpl in H1.
  pose proof (shr_fexp_nonneg
                (round_nearest_even (shr_m mrs') (loc_of_shr_record mrs'))
                e' loc_Exact
                (round_nearest_even_nonneg _ _ H1)) as H2.
  destruct (shr_fexp Js.prec Js.emax _ e' loc_Exact) as [mrs'' e''].
  simpl in H2. destruct (shr_m mrs'') as [|p|p]; [done| |lia].
  by destruct (e'' <=? _).
Qed.

Lemma div_not_nan (x y : Js.number) :
  is_finite x → SFltb (Js.of_Z 0) y = true → is_nan (Js.div x y) = false.
Proof.
  intros Hx Hy.
  destruct y as [sy|sy| |sy my ey]; try discriminate;
    destruct x as [sx|sx| |sx mx ex]; try done.
  unfold Js.div, SFdiv, SFdiv_core_binary.
  set (m' := match _ with Z.pos _ => _ | _ => _ end).
  assert (Hm' : 0 ≤ m').
  { subst m'. destruct (_ - _ - _) as [|p|p]; [lia| |lia].
    apply Z.shiftl_nonneg. lia. }
  pose proof (Z.div_pos m' (Z.pos my) Hm' ltac:(lia)) as Hq.
  unfold Z.div in Hq. destruct (Z.div_eucl m' (Z.pos my)) as [q r].
  by apply binary_round_aux_not_nan.
Qed.

Lemma mul_100_not_nan (x : Js.number) :
  is_nan x = false → is_nan (Js.mul x (Js.of_Z 100)) = false.
Proof.
  intros Hx. destruct x as [sx|sx| |sx mx ex]; try done.
  unfold Js.mul. change (Js.of_Z 100)
    with (S754_finite false 7036874417766400 (-46)).
  unfold SFmul. apply binary_round_aux_not_nan. lia.
Qed.

Lemma Math_round_not_nan (x : Js.number) :
  is_nan x = false → is_nan (Js.Math_round x) = false.
Proof.
  intros Hx. destruct x as [sx|sx| |sx mx ex]; try done.
  unfold Js.Math_round, binary_normalize.
  destruct (Js.round_finite sx mx ex) as [|p|p]; [done|..];
    unfold binary_round; destruct (shl_align _ _ _) as [mz ez];
    apply binary_round_aux_not_nan; lia.
Qed.

Lemma SFcompare_antisym (a b : Js.number) :
  SFcompare b a = CompOpp <$> SFcompare a b.
Proof.
  destruct a as [sa|sa| |sa ma ea], b as [sb|sb| |sb mb eb];
    try (destruct sa); try (destruct sb); try reflexivity; simpl;
    rewrite (Z.compare_antisym ea eb);
    destruct (ea ?= eb); simpl; try reflexivity;
    by rewrite (Pos.compare_cont_antisym ma mb Eq).
Qed.

Lemma Math_min_not_nan (a b : Js.number) :
  is_nan a = false → is_nan b = false →
  Math_min a b
  = match SFcompare a b with
    | Some Lt => a
    | Some Gt => b
    | _ =>
        match a, b with
        | S754_zero sa, S754_zero sb => S754_zero (sa || sb)
        | _, _ => a
        end
    end.
Proof. intros Ha Hb. unfold Math_min. by rewrite Ha, Hb. Qed.

Lemma Math_max_not_nan (a b : Js.number) :
  is_nan a = false → is_nan b = false →
  Math_max a b
  = match SFcompare a b with
    | Some Lt => b
    | Some Gt => a
    | _ =>
        match a, b with
        | S754_zero sa, S754_zero sb => S754_zero (sa && sb)
        | _, _ => a
        end
    end.
Proof. intros Ha Hb. unfold Math_max. by rewrite Ha, Hb. Qed.

(** The larger of 0 and a number is not below 0, and not above a bound that
    the number is not above. *)
Lemma Math_max_0 (q bound : Js.number) :
  is_nan q = false →
  SFleb (S754_zero false) bound = true →
  SFleb q bound = true →
  SFleb (S754_zero false) (Math_max (S754_zero false) q) = true
  ∧ SFleb (Math_max (S754_zero false) q) bound = true.
Proof.
  intros Hq Hb Hle. rewrite Math_max_not_nan by done.
  destruct (SFcompare (S754_zero false) q) as [[]|] eqn:Hc.
  - destruct q as [sq|sq| |sq mq eq]; try discriminate;
      try (destruct sq; discriminate).
    split; [reflexivity|exact Hb].
  - split; [|exact Hle]. unfold SFleb. by rewrite Hc.
  - split; [reflexivity|exact Hb].
  - destruct q as [sq|sq| |sq mq eq]; try discriminate;
      destruct sq; discriminate.
Qed.

(** Clamping to [0, 100], as [timeProgress] does it. *)
Lemma clamp_in_range (p : Js.number) :
  is_nan p = false →
  in_range (Math_max (Js.of_Z 0) (Math_min (Js.of_Z 100) p)).
Proof.
  intros Hp.
  change (Js.of_Z 100) with (S754_finite false 7036874417766400 (-46)).
  change (Js.of_Z 0) with (S754_zero false).
  set (hundred := S754_finite false 7036874417766400 (-46)).
  assert (Hq : is_nan (Math_min hundred p) = false
               ∧ SFleb (Math_min hundred p) hundred = true).
  { rewrite Math_min_not_nan by done.
    pose proof (SFcompare_antisym hundred p) as Hanti.
    destruct (SFcompare hundred p) as [[]|] eqn:Hc; try done.
    split; [done|]. unfold SFleb. by rewrite Hanti. }
  destruct Hq as [Hqn Hle].
  by apply Math_max_0.
Qed.

(** *** The value shown is a whole number *)

Lemma shr_fexp_exponent (m e : Z) (l : location) :
  e ≤ (shr_fexp Js.prec Js.emax m e l).2.
Proof.
  unfold shr_fexp, shr. destruct (_ - e) as [|p|p]; simpl; lia.
Qed.

(** A rounded value keeps the sign it is given, and its exponent is not
    below the one it starts from. *)
Lemma binary_round_aux_shape (sx : bool) (mx ex : Z) (lx : location) :
  0 ≤ mx →
  let r := binary_round_aux Js.prec Js.emax sx mx ex lx in
  r = S754_zero sx ∨ r = S754_infinity sx
  ∨ ∃ m e, r = S754_finite sx m e ∧ ex ≤ e.
Proof.
  intros Hm r. subst r. unfold binary_round_aux.
  pose proof (shr_fexp_nonneg mx ex lx Hm) as H1.
  pose proof (shr_fexp_exponent mx ex lx) as He1.
  destruct (shr_fexp Js.prec Js.emax mx ex lx) as [mrs' e'].
  cbn [fst snd] in H1, He1.
  pose proof (shr_fexp_nonneg
                (round_nearest_even (shr_m mrs') (loc_of_shr_record mrs'))
                e' loc_Exact
                (round_nearest_even_nonneg _ _ H1)) as H2.
  pose proof (shr_fexp_exponent
                (round_nearest_even (shr_m mrs') (loc_of_shr_record mrs'))
                e' loc_Exact) as He2.
  destruct (shr_fexp Js.prec Js.emax _ e' loc_Exact) as [mrs'' e''].
  cbn [fst snd] in H2, He2.
  destruct (shr_m mrs'') as [|p|p]; [by left| |lia].
  destruct (e'' <=? _); [|by right; left].
  right; right. exists p, e''. split; [done|lia].
Qed.

Lemma digits2_pos_bound (p : positive) :
  Z.pos p < 2 ^ Z.pos (digits2_pos p).
Proof.
  induction p as [p IH|p IH|]; simpl; [| |done].
  - rewrite Pos2Z.inj_succ, Z.pow_succ_r by lia. lia.
  - rewrite Pos2Z.inj_succ, Z.pow_succ_r by lia. lia.
Qed.

(** An integer converted to a number: from 128 on, the exponent of the
    result is above that of 100. *)
Lemma binary_round_shape (sx : bool) (p : positive) :
  let r := binary_round Js.prec Js.emax sx p 0 in
  r = S754_zero sx ∨ r = S754_infinity sx
  ∨ ∃ m e, r = S754_finite sx m e ∧ (128 ≤ Z.pos p → -45 ≤ e).
Proof.
  intros r. subst r. unfold binary_round, shl_align.
  set (ex' := fexp Js.prec Js.emax (Z.pos (digits2_pos p) + 0)).
  assert (Hex' : 128 ≤ Z.pos p → -45 ≤ ex').
  { intros Hp. subst ex'. unfold fexp, Js.prec.
    pose proof (digits2_pos_bound p) as Hd.
    assert (7 < Z.pos (digits2_pos p)).
    { apply (Z.pow_lt_mono_r_iff 2); [lia|lia|].
      change (2 ^ 7) with 128. lia. }
    lia. }
  destruct (ex' - 0) as [|d|d] eqn:Hd.
  - destruct (binary_round_aux_shape sx (Z.pos p) 0 loc_Exact ltac:(lia))
      as [H|[H|(m & e & H & He)]]; [by left|by right; left|].
    right; right. exists m, e. split; [done|lia].
  - destruct (binary_round_aux_shape sx (Z.pos p) 0 loc_Exact ltac:(lia))
      as [H|[H|(m & e & H & He)]]; [by left|by right; left|].
    right; right. exists m, e. split; [done|lia].
  - destruct (binary_round_aux_shape sx (Z.pos (Pos.iter xO p d)) ex'
                loc_Exact ltac:(lia))
      as [H|[H|(m & e & H & He)]]; [by left|by right; left|].
    right; right. exists m, e. split; [done|]. intros Hp.
    specialize (Hex' Hp). lia.
Qed.

Lemma clamp_zero (s : bool) : clamp (S754_zero s) = Js.of_Z 0.
Proof. by destruct s. Qed.

Lemma clamp_infinity (s : bool) :
  clamp (S754_infinity s) = Js.of_Z (if s then 0 else 100).
Proof. by destruct s. Qed.

Lemma clamp_negative (m : positive) (e : Z) :
  clamp (S754_finite true m e) = Js.of_Z 0.
Proof. reflexivity. Qed.

Lemma clamp_large (m : positive) (e : Z) :
  -45 ≤ e → clamp (S754_finite false m e) = Js.of_Z 100.
Proof.
  intros He. unfold clamp.
  change (Js.of_Z 100) with (S754_finite false 7036874417766400 (-46)).
  change (Js.of_Z 0) with (S754_zero false).
  unfold Math_min. cbn [is_nan orb SFcompare].
  assert (Hc : (-46 ?= e) = Lt) by (apply Z.compare_lt_iff; lia).
  rewrite Hc. reflexivity.
Qed.

Lemma clamp_table :
  all_below
    (λ n, bool_decide (clamp (Js.of_Z (Z.of_nat n))
                       = Js.of_Z (Z.min (Z.of_nat n) 100))) 128
  = true.
Proof. vm_compute. reflexivity. Qed.

(** Whatever is rounded and clamped is one of the integers 0, ..., 100. *)
Lemma clamp_round_whole (x : Js.number) :
  is_nan x = false →
  ∃ z, 0 ≤ z ≤ 100 ∧ clamp (Js.Math_round x) = Js.of_Z z.
Proof.
  intros Hx. destruct x as [s|s| |s m e]; [| |done|].
  - exists 0. split; [lia|]. apply clamp_zero.
  - exists (if s then 0 else 100). split; [destruct s; lia|].
    apply clamp_infinity.
  - unfold Js.Math_round, binary_normalize.
    destruct (Js.round_finite s m e) as [|p|p].
    + exists 0. split; [lia|]. apply clamp_zero.
    + destruct (decide (Z.pos p < 128)) as [Hsmall|Hlarge].
      * exists (Z.min (Z.pos p) 100). split; [lia|].
        pose proof (all_below_spec _ _ clamp_table (Pos.to_nat p)
                      ltac:(lia)) as Ht.
        cbv beta in Ht. apply bool_decide_eq_true in Ht.
        rewrite positive_nat_Z in Ht. exact Ht.
      * destruct (binary_round_shape false p)
          as [->|[->|(m' & e' & -> & He')]].
        -- exists 0. split; [lia|]. apply clamp_zero.
        -- exists 100. split; [lia|]. apply clamp_infinity.
        -- exists 100. split; [lia|]. apply clamp_large, He'. lia.
    + destruct (binary_round_shape true p) as [->|[->|(m' & e' & -> & _)]].
      * exists 0. split; [lia|]. apply clamp_zero.
      * exists 0. split; [lia|]. apply clamp_infinity.
      * exists 0. split; [lia|]. apply clamp_negative.
Qed.

(** X15. The share of time elapsed that the project page shows is one of the
    whole numbers 0, ..., 100, for every pair of day counts of which the
    elapsed one is a number (not NaN or infinite).  It is 0 when the planned
    duration is not positive.  The days remaining are never negative when
    their day count is a number; from NaN they are NaN. *)
Theorem timeProgress_in_range (totalDuration elapsedDuration remaining
    : Js.number) :
  is_finite elapsedDuration →
  (∃ z, 0 ≤ z ≤ 100
        ∧ timeProgress totalDuration elapsedDuration = Js.of_Z z)
  ∧ in_range (timeProgress totalDuration elapsedDuration)
  ∧ (SFltb (Js.of_Z 0) totalDuration = false →
     timeProgress totalDuration elapsedDuration = Js.of_Z 0)
  ∧ (is_nan remaining = false →
     Js.leb (Js.of_Z 0) (daysRemaining remaining) = true)
  ∧ (is_nan remaining = true → is_nan (daysRemaining remaining) = true).
Proof.
  intros He. split; [|split; [|split; [|split]]].
  - unfold timeProgress. fold (clamp
      (if SFltb (Js.of_Z 0) totalDuration
       then Js.Math_round
              (Js.mul (Js.div elapsedDuration totalDuration) (Js.of_Z 100))
       else Js.of_Z 0)).
    destruct (SFltb (Js.of_Z 0) totalDuration) eqn:Ht.
    + apply clamp_round_whole, mul_100_not_nan. by apply div_not_nan.
    + exists 0. split; [lia|]. reflexivity.
  - unfold timeProgress. apply clamp_in_range.
    destruct (SFltb (Js.of_Z 0) totalDuration) eqn:Ht; [|done].
    apply Math_round_not_nan, mul_100_not_nan. by apply div_not_nan.
  - intros Ht. unfold timeProgress. rewrite Ht. vm_compute. reflexivity.
  - intros Hr. unfold daysRemaining. change (Js.of_Z 0) with (S754_zero false).
    rewrite Math_max_not_nan by done.
    destruct (SFcompare (S754_zero false) remaining) as [[]|] eqn:Hc.
    + destruct remaining as [s|s| |s m e]; try discriminate;
        try (destruct s; discriminate). reflexivity.
    + unfold Js.leb, SFleb. by rewrite Hc.
    + reflexivity.
    + destruct remaining as [s|s| |s m e]; try discriminate;
        destruct s; discriminate.
  - intros Hr. by destruct remaining.
Qed.

Lemma timeProgress_in_range_witness :
  (∃ z, 0 ≤ z ≤ 100
        ∧ timeProgress (Js.of_Z 120) (Js.of_Z 200) = Js.of_Z z)
  ∧ in_range (timeProgress (Js.of_Z 120) (Js.of_Z 200))
  ∧ (SFltb (Js.of_Z 0) (Js.of_Z 120) = false →
     timeProgress (Js.of_Z 120) (Js.of_Z 200) = Js.of_Z 0)
  ∧ (is_nan (Js.of_Z (-80)) = false →
     Js.leb (Js.of_Z 0) (daysRemaining (Js.of_Z (-80))) = true)
  ∧ (is_nan (Js.of_Z (-80)) = true →
     is_nan (daysRemaining (Js.of_Z (-80))) = true).
Proof.
  apply (timeProgress_in_range (Js.of_Z 120) (Js.of_Z 200) (Js.of_Z (-80))).
  vm_compute. exact I.
Defined.

Lemma timeProgress_examples :
  timeProgress (Js.of_Z 120) (Js.of_Z 200) = Js.of_Z 100
  ∧ timeProgress (Js.of_Z 120) (Js.of_Z 30) = Js.of_Z 25
  ∧ timeProgress (Js.of_Z 120) (Js.of_Z (-10)) = Js.of_Z 0
  ∧ timeProgress (Js.of_Z 0) (Js.of_Z 30) = Js.of_Z 0
  ∧ timeProgress S754_nan S754_nan = Js.of_Z 0
  ∧ daysRemaining (Js.of_Z (-80)) = Js.of_Z 0
  ∧ daysRemaining (Js.of_Z 90) = Js.of_Z 90.
Proof. vm_compute. repeat split; reflexivity. Qed.

(** ** The sequence of weeks *)

Lemma reportsQuery_length fs pid :
  length (reportsQuery fs pid) = size (reportsCollection fs pid).
Proof.
  unfold reportsQuery, useCollection.
  rewrite (Permutation_length (merge_sort_Permutation _ _)).
  by rewrite length_fmap, length_map_to_list.
Qed.

Lemma sequential_weeks (coll : gmap string WeeklyReport) k r :
  sequential coll → coll !! k = Some r →
  1 ≤ week r ≤ Z.of_nat (size coll).
Proof.
  intros Hseq Hk.
  assert (Hin : week r ∈ week <$> (map_to_list coll).*2).
  { apply list_elem_of_fmap. exists r. split; [done|].
    apply list_elem_of_fmap. exists (k, r). split; [done|].
    by apply elem_of_map_to_list. }
  unfold sequential in Hseq. rewrite Hseq in Hin.
  apply list_elem_of_fmap in Hin as (i & -> & Hi).
  apply list_elem_of_In, in_seq in Hi. lia.
Qed.

Lemma sequential_insert (coll : gmap string WeeklyReport) k r :
  sequential coll → coll !! k = None →
  week r = Z.of_nat (size coll) + 1 →
  sequential (<[k := r]> coll).
Proof.
  unfold sequential. intros Hseq Hk Hw.
  rewrite map_to_list_insert by done.
  rewrite map_size_insert_None by done.
  rewrite !fmap_cons. cbn [snd]. rewrite Hseq, Hw.
  rewrite seq_S, fmap_app. cbn [fmap list_fmap].
  rewrite <- Permutation_cons_append.
  by replace (Z.of_nat (1 + size coll)) with (Z.of_nat (size coll) + 1) by lia.
Qed.

Lemma insert_latest_monotone (coll : gmap string WeeklyReport)
    (k : string) (final : WeeklyReport) :
  monotone coll →
  (∀ k1 r1, coll !! k1 = Some r1 → week r1 < week final →
            milestones r1 ⊆ milestones final) →
  (∀ k2 r2, coll !! k2 = Some r2 → week r2 ≤ week final) →
  monotone (<[k := final]> coll).
Proof.
  intros Hmono Hearlier Hlatest k1 r1 Hk1 k2 r2 Hk2 Hlt.
  destruct (decide (k2 = k)) as [->|Hk2'].
  - rewrite lookup_insert_eq in Hk2. injection Hk2 as <-.
    destruct (decide (k1 = k)) as [->|Hk1'].
    + rewrite lookup_insert_eq in Hk1. injection Hk1 as <-. lia.
    + rewrite lookup_insert_ne in Hk1 by done. by apply (Hearlier k1).
  - rewrite lookup_insert_ne in Hk2 by done.
    destruct (decide (k1 = k)) as [->|Hk1'].
    + rewrite lookup_insert_eq in Hk1. injection Hk1 as <-.
      specialize (Hlatest k2 r2 Hk2). lia.
    + rewrite lookup_insert_ne in Hk1 by done.
      by apply (Hmono k1 r1 Hk1 k2 r2 Hk2).
Qed.

(** X16. The "New Report" link numbers the new report one above the number
    of reports.  When the weeks of the stored reports are 1, ..., n, that
    week is above all of them, and saving the new report (valid, accepted,
    under a fresh id) leaves the weeks 1, ..., n + 1; when the milestones
    were checked through the enabled checkboxes, a store in which completion
    was never retracted stays so. *)
Theorem new_report_link_keeps_sequence zm env fs project pm
    (evs : list FormEvent) :
  let pid := project_id project in
  let coll := reportsCollection fs pid in
  let n := newReportNumber (Some (reportsQuery fs pid)) in
  sequential coll →
  coll !! autoId env = None →
  report_verdict env = None →
  n = Z.of_nat (size coll) + 1
  ∧ (∀ k r, coll !! k = Some r → week r < n)
  ∧ ∃ props,
      ReportFormLoader env fs project n None = Some props
      ∧ let st := foldl handleEvent (initialState props) evs in
        let coll' :=
          reportsCollection
            (saveReportAndProject zm env props pm false st fs).1.2 pid in
        valid_draft (reportDataForValidation pm st) →
        sequential coll'
        ∧ (Forall (enabled props pm) evs → monotone coll → monotone coll').
Proof.
  intros pid coll n Hseq Hfresh Hrv.
  assert (Hn : n = Z.of_nat (size coll) + 1).
  { subst n. unfold newReportNumber. simpl. by rewrite reportsQuery_length. }
  assert (Hbelow : ∀ k r, coll !! k = Some r → week r < n).
  { intros k r Hk. pose proof (sequential_weeks coll k r Hseq Hk). lia. }
  split; [done|]. split; [done|].
  eexists. split; [apply ReportFormLoader_new|].
  set (props := mkProps _ _ _). cbv zeta. intros Hv.
  rewrite (saveReportAndProject_accepted zm env props pm _ fs) by done.
  cbn [fst snd]. rewrite reportsCollection_set.
  change (project_id (p_project props)) with pid.
  destruct (decide (pid = pid)); [|done].
  change (report_key env props) with (autoId env). fold coll.
  split.
  - apply sequential_insert; [done..|]. simpl. exact Hn.
  - intros Hen Hmono. apply insert_latest_monotone; [done|..].
    + intros k1 r1 Hk1 Hlt m Hm. simpl.
      apply (events_keep_floor props pm); [done|apply floor_in_initialState|].
      unfold props. cbn [p_previouslyCompletedMilestones].
      apply previouslyCompletedMilestones_spec. exists k1, r1.
      split; [done|]. split; [by apply (Hbelow k1)|done].
    + intros k2 r2 Hk2. simpl. specialize (Hbelow k2 r2 Hk2). lia.
Qed.

Lemma new_report_link_keeps_sequence_witness :
  let fs := Scenario.store [("r1", Scenario.report 1 33 ["a"] "T0");
                            ("r2", Scenario.report 2 66 ["a"; "b"] "T1")]
                           ["a"; "b"; "c"] in
  let pm := Some (milestonesQuery fs Scenario.project) in
  let evs := [onSummaryChange "Inverter set"; onCheckedChange "c" true] in
  let coll := reportsCollection fs "p1" in
  let n := newReportNumber (Some (reportsQuery fs "p1")) in
  n = Z.of_nat (size coll) + 1
  ∧ (∀ k r, coll !! k = Some r → week r < n)
  ∧ ∃ props,
      ReportFormLoader Scenario.env fs Scenario.project n None = Some props
      ∧ let st := foldl handleEvent (initialState props) evs in
        let coll' :=
          reportsCollection
            (saveReportAndProject Scenario.zod Scenario.env props pm false
               st fs).1.2 "p1" in
        valid_draft (reportDataForValidation pm st) →
        sequential coll'
        ∧ (Forall (enabled props pm) evs → monotone coll → monotone coll').
Proof.
  intros fs pm evs.
  apply (new_report_link_keeps_sequence Scenario.zod Scenario.env fs
           Scenario.project pm evs).
  - unfold sequential. vm_compute. reflexivity.
  - vm_compute. reflexivity.
  - reflexivity.
Defined.

(** ** The general report *)

Lemma elem_of_reportsQuery fs pid (r : WeeklyReport) :
  r ∈ reportsQuery fs pid
  ↔ ∃ k r0, reportsCollection fs pid !! k = Some r0 ∧ r = with_id k r0.
Proof.
  unfold reportsQuery.
  by rewrite merge_sort_Permutation, elem_of_useCollection.
Qed.

Lemma elem_of_allCompletedMilestones (reports : list WeeklyReport) m :
  m ∈ allCompletedMilestones reports
  ↔ ∃ r, r ∈ reports ∧ m ∈ milestones r.
Proof.
  unfold allCompletedMilestones. rewrite elem_of_Set_from, elem_of_concat.
  split.
  - intros (ms & Hm & Hms). apply list_elem_of_fmap in Hms as (r & -> & Hr).
    eauto.
  - intros (r & Hr & Hm). exists (milestones r). split; [done|].
    apply list_elem_of_fmap. eauto.
Qed.

(** X17. In a store where completion was never retracted and no two reports
    share a week, the milestones that the general report shows as completed
    are exactly those of the latest report; when that report holds no id
    twice, the count shown is the number of its milestones. *)
Theorem general_report_shows_latest fs pid (r : WeeklyReport) :
  let coll := reportsCollection fs pid in
  let reports := reportsQuery fs pid in
  monotone coll →
  (∀ k1 r1 k2 r2, coll !! k1 = Some r1 → coll !! k2 = Some r2 →
                  week r1 = week r2 → k1 = k2) →
  latestReport reports = Some r →
  (∀ milestone, isCompleted reports milestone = true
                ↔ milestone_id milestone ∈ milestones r)
  ∧ (NoDup (milestones r) →
     length (allCompletedMilestones reports) = length (milestones r)).
Proof.
  intros coll reports Hmono Hdistinct Hlast.
  assert (Hr : r ∈ reports) by (by apply last_Some_elem_of).
  assert (Hmax : ∀ r', r' ∈ reports → week r' ≤ week r).
  { apply last_sorted_max; [apply reportsQuery_sorted|done]. }
  assert (Hset : ∀ m, m ∈ allCompletedMilestones reports ↔ m ∈ milestones r).
  { intros m. rewrite elem_of_allCompletedMilestones. split; [|eauto].
    intros (r' & Hr' & Hm). specialize (Hmax r' Hr').
    apply elem_of_reportsQuery in Hr as (k & r0 & Hk & ->).
    apply elem_of_reportsQuery in Hr' as (k' & r0' & Hk' & ->).
    simpl in *. destruct (decide (week r0' = week r0)) as [Heq|Hne].
    - assert (k' = k) as -> by (by apply (Hdistinct k' r0' k r0)).
      congruence.
    - apply (Hmono k' r0' Hk' k r0 Hk); [lia|done]. }
  split.
  - intros milestone. unfold isCompleted. rewrite bool_decide_eq_true.
    apply Hset.
  - intros Hnd. apply Permutation_length, NoDup_Permutation; [|done..].
    apply NoDup_Set_from.
Qed.

Lemma general_report_shows_latest_witness :
  let fs := Scenario.store [("r1", Scenario.report 1 33 ["a"] "T0");
                            ("r2", Scenario.report 2 66 ["a"; "b"] "T1")]
                           ["a"; "b"; "c"] in
  let r := with_id "r2" (Scenario.report 2 66 ["a"; "b"] "T1") in
  let reports := reportsQuery fs "p1" in
  (∀ milestone, isCompleted reports milestone = true
                ↔ milestone_id milestone ∈ milestones r)
  ∧ (NoDup (milestones r) →
     length (allCompletedMilestones reports) = length (milestones r)).
Proof.
  intros fs r reports.
  apply (general_report_shows_latest fs "p1" r).
  - apply (bool_decide_unpack _). vm_compute. reflexivity.
  - intros k1 r1 k2 r2 H1 H2. revert k2 r2 H2. revert k1 r1 H1.
    change (map_Forall (λ k1 r1,
              map_Forall (λ k2 r2, week r1 = week r2 → k1 = k2)
                         (reportsCollection fs "p1"))
              (reportsCollection fs "p1")).
    apply (bool_decide_unpack _). vm_compute. reflexivity.
  - vm_compute. reflexivity.
Defined.

(** X18. What the form of a new report inherits is what the general report
    shows as completed: for a week above those of all stored reports, the
    inherited floor and the completed milestones of the general report have
    the same ids. *)
Theorem floor_is_general_report fs pid (w : Z) :
  (∀ k r, reportsCollection fs pid !! k = Some r → week r < w) →
  previouslyCompletedMilestones (Some (previousReportsQuery fs pid w))
  ≡ₚ allCompletedMilestones (reportsQuery fs pid).
Proof.
  intros Hw. apply NoDup_Permutation; [apply NoDup_Set_from..|].
  intros m. rewrite previouslyCompletedMilestones_spec,
    elem_of_allCompletedMilestones. split.
  - intros (k & r & Hk & _ & Hm). exists (with_id k r). split; [|done].
    apply elem_of_reportsQuery. eauto.
  - intros (r & Hr & Hm). apply elem_of_reportsQuery in Hr
      as (k & r0 & Hk & ->). exists k, r0. split; [done|].
    split; [by apply (Hw k)|done].
Qed.

Lemma floor_is_general_report_witness :
  let fs := Scenario.store [("r1", Scenario.report 1 33 ["a"] "T0");
                            ("r2", Scenario.report 2 66 ["a"; "b"] "T1")]
                           ["a"; "b"; "c"] in
  previouslyCompletedMilestones (Some (previousReportsQuery fs "p1" 3))
  ≡ₚ allCompletedMilestones (reportsQuery fs "p1").
Proof.
  intros fs. apply (floor_is_general_report fs "p1" 3).
  change (map_Forall (λ _ r, week r < 3) (reportsCollection fs "p1")).
  apply (bool_decide_unpack _). vm_compute. reflexivity.
Defined.

(** ** The milestone form and the project form *)

Lemma check_field_nil required message (data : gmap string string) field :
  check_field required message data field = [] ↔ filled data field.
Proof.
  unfold check_field, filled. destruct (data !! field) as [v|].
  - destruct v as [|c v]; simpl.
    + split; [discriminate|]. intros (? & [= <-] & ?). done.
    + split; [eauto|done].
  - split; [discriminate|]. intros (? & ? & _). done.
Qed.

Lemma with_errors_nil (checks : list (string * list string)) :
  with_errors checks = [] ↔ Forall (λ fe, fe.2 = []) checks.
Proof.
  unfold with_errors. induction checks as [|fe checks IH]; [done|].
  rewrite filter_cons, Forall_cons.
  destruct (decide (fe.2 ≠ [])) as [Hne|He].
  - split; [discriminate|]. intros [? _]. done.
  - apply dec_stable in He. rewrite IH. split; [done|by intros [_ ?]].
Qed.

Lemma milestoneSchema_errors_nil required (data : gmap string string) :
  milestoneSchema_errors required data = []
  ↔ filled data "name" ∧ filled data "description"
    ∧ filled data "projectType".
Proof.
  unfold milestoneSchema_errors. rewrite with_errors_nil.
  rewrite !Forall_cons, Forall_nil. cbn [snd].
  rewrite !check_field_nil. tauto.
Qed.

(** X19. The milestone form writes only a milestone whose name, description
    and project type are all present and not empty; otherwise it shows one
    validation error, leaves the store as it is, and neither resets the form
    nor reports success. *)
Theorem MilestoneForm_validation required verdict newId milestone
    (data : gmap string string) fs :
  let r := MilestoneForm_handleSubmit required verdict newId milestone data fs in
  let complete :=
    filled data "name" ∧ filled data "description"
    ∧ filled data "projectType" in
  (milestoneSchema_errors required data = [] ↔ complete)
  ∧ (¬ complete →
     r.1 = fs
     ∧ ∃ description,
         r.2 = [shown (toast (Some "destructive") "Validation Error"
                         description)])
  ∧ (r.1 ≠ fs → complete ∧ verdict = None).
Proof.
  intros r complete. subst r complete.
  pose proof (milestoneSchema_errors_nil required data) as Hnil.
  split; [done|]. unfold MilestoneForm_handleSubmit.
  destruct (milestoneSchema_errors required data) as [|fe errs].
  - destruct Hnil as [Hnil _]. specialize (Hnil eq_refl).
    split; [done|]. intros Hch. split; [done|].
    destruct verdict as [e|]; [|done]. exfalso. apply Hch.
    by destruct milestone.
  - split.
    + intros _. split; [done|]. eauto.
    + intros Hch. done.
Qed.

Lemma elem_of_milestonesQuery fs project (m : Milestone) :
  m ∈ milestonesQuery fs project
  ↔ ∃ k m0, fs_milestones fs !! k = Some m0
            ∧ m = with_milestone_id k m0
            ∧ milestone_projectType m0 = projectType project.
Proof.
  unfold milestonesQuery, useCollection.
  rewrite list_elem_of_filter, list_elem_of_fmap. split.
  - intros (Ht & [k m0] & -> & Hin). apply elem_of_map_to_list in Hin.
    exists k, m0. done.
  - intros (k & m0 & Hk & -> & Ht). split; [done|].
    exists (k, m0). split; [done|]. by apply elem_of_map_to_list.
Qed.

Lemma milestonesQuery_insert fs project (k : string) (m : Milestone) :
  fs_milestones fs !! k = None →
  milestonesQuery (set_milestones fs (<[k := m]> (fs_milestones fs))) project
  ≡ₚ (if decide (milestone_projectType m = projectType project)
      then [with_milestone_id k m] else [])
     ++ milestonesQuery fs project.
Proof.
  intros Hk. unfold milestonesQuery, useCollection. simpl.
  rewrite map_to_list_insert by done. rewrite fmap_cons, filter_cons. simpl.
  by destruct (decide (milestone_projectType m = projectType project)).
Qed.

Lemma created_milestone_catalog required newId (data : gmap string string)
    fs project :
  milestoneSchema_errors required data = [] →
  fs_milestones fs !! newId = None →
  milestonesQuery
    (MilestoneForm_handleSubmit required None newId None data fs).1 project
  ≡ₚ (if decide (field_value data "projectType" = projectType project)
      then [milestoneData newId data] else [])
     ++ milestonesQuery fs project.
Proof.
  intros Hnil Hfresh. unfold MilestoneForm_handleSubmit. rewrite Hnil.
  simpl. by rewrite milestonesQuery_insert.
Qed.

(** X20. Creating a milestone (complete fields, accepted, fresh id) puts it
    into the catalog of the projects of its type and into no other catalog:
    their catalog is the old one and the new milestone, under the generated
    id; projects and reports are untouched. *)
Theorem MilestoneForm_creates_in_catalog required newId
    (data : gmap string string) fs :
  filled data "name" → filled data "description" →
  filled data "projectType" →
  fs_milestones fs !! newId = None →
  let fs' := (MilestoneForm_handleSubmit required None newId None data fs).1 in
  (∀ project,
     milestonesQuery fs' project
     ≡ₚ (if decide (field_value data "projectType" = projectType project)
         then [milestoneData newId data] else [])
        ++ milestonesQuery fs project)
  ∧ fs_projects fs' = fs_projects fs
  ∧ fs_weeklyReports fs' = fs_weeklyReports fs.
Proof.
  intros Hn Hd Ht Hfresh fs'.
  destruct (milestoneSchema_errors_nil required data) as [_ Hnil].
  split.
  - intros project. apply created_milestone_catalog; [by apply Hnil|done].
  - subst fs'. unfold MilestoneForm_handleSubmit. by rewrite Hnil.
Qed.

Lemma MilestoneForm_creates_in_catalog_witness :
  let fs := Scenario.store [] ["a"; "b"] in
  let data : gmap string string :=
    {[ "name" := "Grid connection"; "description" := "Utility sign-off";
       "projectType" := "solar-roof" ]} in
  let fs' :=
    (MilestoneForm_handleSubmit "Required" None "m9" None data fs).1 in
  (∀ project,
     milestonesQuery fs' project
     ≡ₚ (if decide (field_value data "projectType" = projectType project)
         then [milestoneData "m9" data] else [])
        ++ milestonesQuery fs project)
  ∧ fs_projects fs' = fs_projects fs
  ∧ fs_weeklyReports fs' = fs_weeklyReports fs.
Proof.
  intros fs data.
  apply (MilestoneForm_creates_in_catalog "Required" "m9" data fs).
  - eexists. split; [vm_compute; reflexivity|discriminate].
  - eexists. split; [vm_compute; reflexivity|discriminate].
  - eexists. split; [vm_compute; reflexivity|discriminate].
  - vm_compute. reflexivity.
Defined.

(** X21. A milestone added to the catalog of a project's type withdraws the
    completion offer: a form state on which submitting opened the completion
    dialog no longer opens it against the enlarged catalog, whose size is one
    more. *)
Theorem new_milestone_withdraws_completion required newId
    (data : gmap string string) fs (project : Project) (st : FormState) :
  filled data "name" → filled data "description" →
  filled data "projectType" →
  fs_milestones fs !! newId = None →
  field_value data "projectType" = projectType project →
  allMilestonesCompleted project (Some (milestonesQuery fs project)) st
  = true →
  let fs' := (MilestoneForm_handleSubmit required None newId None data fs).1 in
  length (milestonesQuery fs' project)
  = S (length (milestonesQuery fs project))
  ∧ allMilestonesCompleted project (Some (milestonesQuery fs' project)) st
    = false.
Proof.
  intros Hn Hd Ht Hfresh Htype Hall fs'.
  destruct (milestoneSchema_errors_nil required data) as [_ Hnil].
  pose proof (created_milestone_catalog required newId data fs project
                (Hnil (conj Hn (conj Hd Ht))) Hfresh) as Hcat.
  fold fs' in Hcat. rewrite decide_True in Hcat by done.
  assert (Hlen : length (milestonesQuery fs' project)
                 = S (length (milestonesQuery fs project))).
  { by rewrite (Permutation_length Hcat). }
  split; [done|].
  apply allMilestonesCompleted_spec in Hall as [Heq _].
  apply not_true_is_false. intros Hall'.
  apply allMilestonesCompleted_spec in Hall' as [Heq' _]. lia.
Qed.

Lemma new_milestone_withdraws_completion_witness :
  let fs := Scenario.store [] ["a"; "b"] in
  let data : gmap string string :=
    {[ "name" := "Grid connection"; "description" := "Utility sign-off";
       "projectType" := "solar-roof" ]} in
  let st := mkFormState "Array wired" "On Track" ["a"; "b"] false false in
  let fs' :=
    (MilestoneForm_handleSubmit "Required" None "m9" None data fs).1 in
  length (milestonesQuery fs' Scenario.project)
  = S (length (milestonesQuery fs Scenario.project))
  ∧ allMilestonesCompleted Scenario.project
      (Some (milestonesQuery fs' Scenario.project)) st = false.
Proof.
  intros fs data st.
  apply (new_milestone_withdraws_completion "Required" "m9" data fs
           Scenario.project st).
  - eexists. split; [vm_compute; reflexivity|discriminate].
  - eexists. split; [vm_compute; reflexivity|discriminate].
  - eexists. split; [vm_compute; reflexivity|discriminate].
  - vm_compute. reflexivity.
  - vm_compute. reflexivity.
  - vm_compute. reflexivity.
Defined.

(** X22. Editing a stored milestone (complete fields, accepted) replaces it
    under its own id and moves it between catalogs: afterwards it is in the
    catalog of a project exactly when the submitted type is the project's,
    every other milestone stays where it was, and the reports, which may
    hold its id, are untouched. *)
Theorem MilestoneForm_update_moves required newId (milestone old : Milestone)
    (data : gmap string string) fs :
  filled data "name" → filled data "description" →
  filled data "projectType" →
  fs_milestones fs !! milestone_id milestone = Some old →
  let fs' :=
    (MilestoneForm_handleSubmit required None newId (Some milestone) data
       fs).1 in
  (∀ project m,
     m ∈ milestonesQuery fs' project
     ↔ (m = milestoneData (milestone_id milestone) data
        ∧ field_value data "projectType" = projectType project)
       ∨ (m ∈ milestonesQuery fs project
          ∧ milestone_id m ≠ milestone_id milestone))
  ∧ fs_projects fs' = fs_projects fs
  ∧ fs_weeklyReports fs' = fs_weeklyReports fs.
Proof.
  intros Hn Hd Ht Hold fs'. subst fs'. unfold MilestoneForm_handleSubmit.
  destruct (milestoneSchema_errors_nil required data) as [_ Hnil].
  rewrite Hnil by done. unfold updateDoc. rewrite Hold. cbn [fst].
  split; [|done]. intros project m.
  rewrite !elem_of_milestonesQuery. cbn [fs_milestones set_milestones].
  split.
  - intros (k & m0 & Hk & -> & Hty).
    apply lookup_insert_Some in Hk as [[<- <-]|[Hne Hk]].
    + left. done.
    + right. split; [by exists k, m0|]. simpl. congruence.
  - intros [[-> Hty]|[(k & m0 & Hk & -> & Hty) Hne]].
    + exists (milestone_id milestone), (milestoneData (milestone_id old) data).
      rewrite lookup_insert_eq. done.
    + exists k, m0. simpl in Hne.
      rewrite lookup_insert_ne by congruence. done.
Qed.

Lemma MilestoneForm_update_moves_witness :
  let fs :=
    Scenario.store [("r1", Scenario.report 1 50 ["a"] "t1")] ["a"; "b"] in
  let data : gmap string string :=
    {[ "name" := "Permit"; "description" := "Building permit";
       "projectType" := "wind-farm" ]} in
  let milestone := with_milestone_id "a" (milestone_named "a") in
  let fs' :=
    (MilestoneForm_handleSubmit "Required" None "m9" (Some milestone) data
       fs).1 in
  (∀ project m,
     m ∈ milestonesQuery fs' project
     ↔ (m = milestoneData (milestone_id milestone) data
        ∧ field_value data "projectType" = projectType project)
       ∨ (m ∈ milestonesQuery fs project
          ∧ milestone_id m ≠ milestone_id milestone))
  ∧ fs_projects fs' = fs_projects fs
  ∧ fs_weeklyReports fs' = fs_weeklyReports fs.
Proof.
  intros fs data milestone.
  apply (MilestoneForm_update_moves "Required" "m9" milestone
           (milestone_named "a") data fs).
  - eexists. split; [vm_compute; reflexivity|discriminate].
  - eexists. split; [vm_compute; reflexivity|discriminate].
  - eexists. split; [vm_compute; reflexivity|discriminate].
  - vm_compute. reflexivity.
Defined.

Lemma check_project_status_nil zm required (data : gmap string string) :
  check_project_status zm required data = []
  ↔ ∃ v, data !! "status" = Some v ∧ v ∈ project_statuses.
Proof.
  unfold check_project_status. destruct (data !! "status") as [v|].
  - destruct (decide (v ∈ project_statuses)) as [Hin|Hout].
    + split; [eauto|done].
    + split; [discriminate|]. intros (? & [= <-] & ?). done.
  - split; [discriminate|]. intros (? & ? & _). done.
Qed.

Lemma projectSchema_errors_nil zm required (data : gmap string string) :
  projectSchema_errors zm required data = []
  ↔ Forall (filled data)
      ["name"; "clientId"; "managerId"; "projectType"; "startDate";
       "estimatedEndDate"]
    ∧ ∃ v, data !! "status" = Some v ∧ v ∈ project_statuses.
Proof.
  unfold projectSchema_errors. rewrite with_errors_nil.
  rewrite !Forall_cons, !Forall_nil. cbn [snd].
  rewrite !check_field_nil, check_project_status_nil. tauto.
Qed.

(** X23. The project form writes only when its six text fields are present
    and not empty and the status is one of the five allowed; otherwise it
    shows one validation error, leaves the store as it is, and neither
    resets the form nor reports success. *)
Theorem ProjectForm_validation zm required verdict newId project
    (data : gmap string string) fs :
  let r := ProjectForm_handleSubmit zm required verdict newId project data fs in
  let complete :=
    Forall (filled data)
      ["name"; "clientId"; "managerId"; "projectType"; "startDate";
       "estimatedEndDate"]
    ∧ ∃ v, data !! "status" = Some v ∧ v ∈ project_statuses in
  (projectSchema_errors zm required data = [] ↔ complete)
  ∧ (¬ complete →
     r.1 = fs
     ∧ ∃ description,
         r.2 = [shown (toast (Some "destructive") "Validation Error"
                         description)])
  ∧ (r.1 ≠ fs → complete ∧ verdict = None).
Proof.
  intros r complete. subst r complete.
  pose proof (projectSchema_errors_nil zm required data) as Hnil.
  split; [done|]. unfold ProjectForm_handleSubmit.
  destruct (projectSchema_errors zm required data) as [|fe errs].
  - destruct Hnil as [Hnil _]. specialize (Hnil eq_refl).
    split; [done|]. intros Hch. split; [done|].
    destruct verdict as [e|]; [|done]. exfalso. apply Hch.
    by destruct project.
  - split.
    + intros _. split; [done|]. eauto.
    + intros Hch. done.
Qed.

(** X24. Once the fields are valid the project form reports success, resets
    and calls [onSuccess] whatever the backend answers: on a refused write
    the store is unchanged and those three effects are still the first ones;
    nothing follows them unless the refusal is a missing permission, and
    then only the permission error. *)
Theorem ProjectForm_success_unconditional zm required verdict newId project
    (data : gmap string string) fs :
  projectSchema_errors zm required data = [] →
  let r := ProjectForm_handleSubmit zm required verdict newId project data fs in
  ∃ trace,
    r.2 = [shown (toast None "Success"
                    ("Project " +:+ (if project is Some _ then "updated" else "created")
                     +:+ " successfully."));
           form_reset; onSuccess] ++ trace
    ∧ (∀ e, verdict = Some e →
         r.1 = fs
         ∧ (code e ≠ "permission-denied" → trace = [])
         ∧ (code e = "permission-denied" →
            ∃ path operation,
              trace = [shown (emit_permission_error path operation)]))
    ∧ (verdict = None → trace = []).
Proof.
  intros Hok r. subst r. unfold ProjectForm_handleSubmit. rewrite Hok.
  cbv zeta.
  destruct verdict as [e|].
  - assert (Hw : ∀ w : FirestoreError + gmap string Project,
              w = inl e →
              match project with
              | Some p =>
                  updateDoc (Some e) (project_id p)
                    (λ old, projectData (project_id old) data) (fs_projects fs)
              | None =>
                  addDoc (Some e) newId (projectData newId data)
                    (fs_projects fs)
              end = w).
    { intros w ->. by destruct project. }
    rewrite (Hw _ eq_refl). cbn [fst snd].
    eexists. split; [reflexivity|]. split; [|discriminate].
    intros e' [= <-]. split; [done|].
    destruct (decide (code e = "permission-denied")) as [Hc|Hc].
    + split; [done|]. eauto.
    + split; [done|]. intros Hc'. done.
  - destruct project as [p|]; unfold updateDoc, addDoc.
    + destruct (fs_projects fs !! project_id p) as [old|]; cbn [fst snd].
      * exists []. split; [done|]. split; [discriminate|done].
      * exists []. split; [done|]. split; [discriminate|done].
    + cbn [fst snd]. exists []. split; [done|]. split; [discriminate|done].
Qed.

Lemma ProjectForm_success_unconditional_witness :
  let data : gmap string string :=
    {[ "name" := "Roof"; "clientId" := "c1"; "managerId" := "u1";
       "projectType" := "solar-roof"; "startDate" := "2024-01-01";
       "estimatedEndDate" := "2024-12-31"; "status" := "At Risk" ]} in
  let fs := Scenario.store [] ["a"] in
  let r :=
    ProjectForm_handleSubmit Scenario.zod "Required"
      (Some (mkFirestoreError "unavailable" "The service is unavailable."))
      "p9" (Some Scenario.project) data fs in
  ∃ trace,
    r.2 = [shown (toast None "Success" "Project updated successfully.");
           form_reset; onSuccess] ++ trace
    ∧ (∀ e, Some (mkFirestoreError "unavailable"
                    "The service is unavailable.") = Some e →
         r.1 = fs
         ∧ (code e ≠ "permission-denied" → trace = [])
         ∧ (code e = "permission-denied" →
            ∃ path operation,
              trace = [shown (emit_permission_error path operation)]))
    ∧ (Some (mkFirestoreError "unavailable" "The service is unavailable.")
       = None → trace = []).
Proof.
  intros data fs.
  apply (ProjectForm_success_unconditional Scenario.zod "Required"
           (Some (mkFirestoreError "unavailable"
                    "The service is unavailable."))
           "p9" (Some Scenario.project) data fs).
  vm_compute. reflexivity.
Defined.
